(** * GPU register interface: a shallow embedding of [src/core/hw/gpu.cpp]

    The translation unit keeps the register file [g_regs], three timing
    counters and two derived constants in globals; [Read]/[Write] serve the
    memory-mapped range starting at [0x1EF00000], [Update] is the timing state
    machine and [Init] sets the defaults.  Here the globals are the fields of
    one [State] record that every operation receives and returns, and what the
    code does to the outside world (host memory accesses, log lines, buffer
    swaps, interrupts, command-list dispatch) is appended to an event trace.

    Integers are [Z]; every place where the C++ arithmetic is unsigned 32- or
    64-bit has its wrap-around written out with [u32]/[u64]. *)

From Stdlib Require Import ZArith Lia Bool.
From stdpp Require Import base list list_numbers.

Local Open Scope Z_scope.

(** ** Fixed-width arithmetic *)

Definition u8 (z : Z) : Z := z mod 2 ^ 8.
Definition u32 (z : Z) : Z := z mod 2 ^ 32.
Definition u64 (z : Z) : Z := z mod 2 ^ 64.

(** Modelled from the spec: [bswap32] comes from the common headers, which are
    not part of the sources; §4.2 describes it as reversing the four bytes of
    the 32-bit pattern. *)
Definition bswap32 (v : Z) : Z :=
  Z.lor
    (Z.lor (Z.shiftl (Z.land v 255) 24)
           (Z.shiftl (Z.land (Z.shiftr v 8) 255) 16))
    (Z.lor (Z.shiftl (Z.land (Z.shiftr v 16) 255) 8)
           (Z.land (Z.shiftr v 24) 255)).

(** ** The register file and its structured views

    [Regs] (declared in [gpu.h], which is not part of the sources) is a struct
    of [NumIds] 32-bit words that [operator[]] indexes as a flat array.  Its
    named members are words or bit fields of words; a [Field] records where a
    member lives. *)

Record Field := mkField { f_index : Z; f_pos : Z; f_bits : Z }.

Definition reg_at (regs : list Z) (index : Z) : Z :=
  default 0 (regs !! Z.to_nat index).

Definition field_mask (f : Field) : Z := Z.shiftl (Z.ones (f_bits f)) (f_pos f).

Definition get_field (f : Field) (regs : list Z) : Z :=
  Z.land (Z.shiftr (reg_at regs (f_index f)) (f_pos f)) (Z.ones (f_bits f)).

Definition set_field (f : Field) (v : Z) (regs : list Z) : list Z :=
  <[Z.to_nat (f_index f) :=
      Z.lor (Z.ldiff (reg_at regs (f_index f)) (field_mask f))
            (Z.land (Z.shiftl v (f_pos f)) (field_mask f))]> regs.

(** The members of [Regs] that [gpu.cpp] names.  The two value registers of
    the memory fill units are at words [0x4 + 0x3] and [0x8 + 0x3] (the
    constants of [GPU_REG_INDEX_WORKAROUND]); every other position is a
    parameter, as are the two [PixelFormat] enumerators the code names and
    [DecodeAddressRegister], through which the [Get...Address] accessors go. *)
Class RegsLayout := {
  NumIds : Z;
  (* memory_fill_config[2] *)
  fill_address_start : bool -> Field;
  fill_address_end : bool -> Field;
  (* framebuffer_config[2] *)
  fb_address_left1 : bool -> Field;
  fb_address_left2 : bool -> Field;
  fb_address_right1 : bool -> Field;
  fb_address_right2 : bool -> Field;
  fb_width : bool -> Field;
  fb_height : bool -> Field;
  fb_stride : bool -> Field;
  fb_color_format : bool -> Field;
  fb_active_fb : bool -> Field;
  (* display_transfer_config *)
  dt_input_address : Field;
  dt_output_address : Field;
  dt_output_width : Field;
  dt_output_height : Field;
  dt_input_width : Field;
  dt_input_height : Field;
  dt_input_format : Field;
  dt_output_format : Field;
  dt_trigger : Z;
  (* command_processor_config *)
  cp_size : Field;
  cp_address : Field;
  cp_trigger : Z;
  DecodeAddressRegister : Z -> Z;
  RGBA8 : Z;
  RGB8 : Z
}.

Definition fill_value (is_second_filler : bool) : Z :=
  if is_second_filler then 0x8 + 0x3 else 0x4 + 0x3.

(** Address translation and raw access ([core/mem_map.h]): host pointers are
    integers, the null pointer is 0. *)
Class MemoryMap := {
  PhysicalToVirtualAddress : Z -> Z;
  GetPointer : Z -> Z
}.

(** ** Events and state *)

Inductive Width := W8 | W16 | W32 | W64.

Definition bits (T : Width) : Z :=
  match T with W8 => 8 | W16 => 16 | W32 => 32 | W64 => 64 end.

Definition is_u32 (T : Width) : bool :=
  match T with W32 => true | _ => false end.

Inductive InterruptId := PDC0 | PDC1.

Inductive LogLine :=
| UnknownRead (sz addr : Z)
| UnknownWrite (sz data addr : Z)
| UnknownSourceFormat (fmt : Z)
| UnknownDestinationFormat (fmt : Z)
| MemoryFill (from to : Z)
| DisplayTriggerTransfer (bytes src iw ih dst ow oh fmt : Z)
| InitializedOK
| ShutdownOK.

Inductive Event :=
| ErrorLog (l : LogLine)
| DebugLog (l : LogLine)
| NoticeLog (l : LogLine)
| Load8 (ptr v : Z)
| Store8 (ptr v : Z)
| Store32 (ptr v : Z)
| ProcessCommandList (buffer size : Z)
| SwapBuffers
| SignalInterrupt (id : InterruptId).

Record State := mkState {
  g_regs : list Z;
  g_cur_line : Z;
  g_last_line_ticks : Z;
  g_last_frame_ticks : Z;
  kFrameCycles : Z;
  kFrameTicks : Z;
  memory : Z -> Z;        (* host memory, one byte per address *)
  trace : list Event      (* oldest event first *)
}.

Definition set_regs (r : list Z) (st : State) : State :=
  mkState r (g_cur_line st) (g_last_line_ticks st) (g_last_frame_ticks st)
          (kFrameCycles st) (kFrameTicks st) (memory st) (trace st).

Definition set_cur_line (v : Z) (st : State) : State :=
  mkState (g_regs st) v (g_last_line_ticks st) (g_last_frame_ticks st)
          (kFrameCycles st) (kFrameTicks st) (memory st) (trace st).

Definition set_last_line_ticks (v : Z) (st : State) : State :=
  mkState (g_regs st) (g_cur_line st) v (g_last_frame_ticks st)
          (kFrameCycles st) (kFrameTicks st) (memory st) (trace st).

Definition set_last_frame_ticks (v : Z) (st : State) : State :=
  mkState (g_regs st) (g_cur_line st) (g_last_line_ticks st) v
          (kFrameCycles st) (kFrameTicks st) (memory st) (trace st).

Definition set_frame_period (cycles ticks : Z) (st : State) : State :=
  mkState (g_regs st) (g_cur_line st) (g_last_line_ticks st)
          (g_last_frame_ticks st) cycles ticks (memory st) (trace st).

Definition set_memory (m : Z -> Z) (st : State) : State :=
  mkState (g_regs st) (g_cur_line st) (g_last_line_ticks st)
          (g_last_frame_ticks st) (kFrameCycles st) (kFrameTicks st) m (trace st).

Definition emit (e : Event) (st : State) : State :=
  mkState (g_regs st) (g_cur_line st) (g_last_line_ticks st)
          (g_last_frame_ticks st) (kFrameCycles st) (kFrameTicks st)
          (memory st) (trace st ++ [e]).

(** ** Raw memory access through host pointers *)

Definition poke (ptr v : Z) (m : Z -> Z) : Z -> Z :=
  fun q => if q =? ptr then u8 v else m q.

Definition peek32 (m : Z -> Z) (ptr : Z) : Z :=
  u8 (m ptr) + 2 ^ 8 * u8 (m (ptr + 1)) + 2 ^ 16 * u8 (m (ptr + 2))
  + 2 ^ 24 * u8 (m (ptr + 3)).

(** [v = ptr[0]] for a [u8*] *)
Definition load8 (ptr : Z) (st : State) : Z * State :=
  let v := u8 (memory st ptr) in (v, emit (Load8 ptr v) st).

(** [ptr[0] = v] for a [u8*] *)
Definition store8 (ptr v : Z) (st : State) : State :=
  emit (Store8 ptr (u8 v)) (set_memory (poke ptr v (memory st)) st).

(** [*ptr = v] for a [u32*]; the host is little-endian. *)
Definition store32 (ptr v : Z) (st : State) : State :=
  emit (Store32 ptr (u32 v))
    (set_memory
       (poke (ptr + 3) (Z.shiftr v 24)
          (poke (ptr + 2) (Z.shiftr v 16)
             (poke (ptr + 1) (Z.shiftr v 8)
                (poke ptr v (memory st))))) st).

(** ** The operations of [gpu.cpp] *)

Inductive Outcome :=
| Done (st : State)
| DivideError (st : State).   (* integer division by zero; [st] is the state reached *)

Definition state_of (o : Outcome) : State :=
  match o with Done st => st | DivideError st => st end.

Section GPU.
Context `{RegsLayout} `{MemoryMap}.

(** [Memory::GetPointer(Memory::PhysicalToVirtualAddress(paddr))] *)
Definition resolve (paddr : Z) : Z := GetPointer (PhysicalToVirtualAddress paddr).

(** [template <typename T> void Read(T &var, const u32 raw_addr)]: the first
    component is the value assigned to [var], [None] when [var] is left
    untouched. *)
Definition Read (T : Width) (raw_addr : Z) (st : State) : option Z * State :=
  let addr := u32 (raw_addr - 0x1EF00000) in
  let index := addr / 4 in
  if (NumIds <=? index) || negb (is_u32 T) then
    (None, emit (ErrorLog (UnknownRead (bits T) addr)) st)
  else
    (Some (reg_at (g_regs st) (addr / 4)), st).

(** [for (u32* ptr = start; ptr < end; ++ptr) *ptr = v;] *)
Fixpoint fill_loop (fuel : nat) (ptr end_ v : Z) (st : State) : State :=
  match fuel with
  | O => st
  | S fuel' =>
      if ptr <? end_ then fill_loop fuel' (ptr + 4) end_ v (store32 ptr v st)
      else st
  end.

Definition fill_words (start end_ v : Z) (st : State) : State :=
  fill_loop (Z.to_nat (end_ - start)) start end_ v st.

(** The body of the two [memory_fill_config[..].value] cases. *)
Definition MemoryFillTrigger (is_second_filler : bool) (st : State) : State :=
  let regs := g_regs st in
  let address_start := get_field (fill_address_start is_second_filler) regs in
  let address_end := get_field (fill_address_end is_second_filler) regs in
  let value := reg_at regs (fill_value is_second_filler) in
  if address_start =? 0 then st
  else
    let start := resolve (DecodeAddressRegister address_start) in
    let end_ := resolve (DecodeAddressRegister address_end) in
    emit (DebugLog (MemoryFill (DecodeAddressRegister address_start)
                               (DecodeAddressRegister address_end)))
         (fill_words start end_ (bswap32 value) st).

(** One iteration of the inner loop of the display transfer.  The fields of
    [config] are read from the register file, which nothing in the loop
    writes.  In [source_pointer + x * 4 + y * config.input_width * 4] each of
    the two products is computed in [u32] and then added to the host pointer,
    which is wider (a 64-bit host): the products wrap, their sum does not. *)
Definition transfer_pixel (source_pointer dest_pointer y x : Z) (st : State) : State :=
  let regs := g_regs st in
  let input_format := get_field dt_input_format regs in
  let output_format := get_field dt_output_format regs in
  let '(r, g, b, a, st) :=
    if input_format =? RGBA8 then
      let srcptr :=
        source_pointer + u32 (x * 4) + u32 (y * get_field dt_input_width regs * 4) in
      let '(r, st) := load8 srcptr st in
      let '(g, st) := load8 (srcptr + 1) st in
      let '(b, st) := load8 (srcptr + 2) st in
      let '(a, st) := load8 (srcptr + 3) st in
      (r, g, b, a, st)
    else
      (0, 0, 0, 0, emit (ErrorLog (UnknownSourceFormat input_format)) st) in
  if output_format =? RGB8 then
    let dstptr :=
      dest_pointer + u32 (x * 3) + u32 (y * get_field dt_output_width regs * 3) in
    store8 (dstptr + 2) b (store8 (dstptr + 1) g (store8 dstptr r st))
  else
    emit (ErrorLog (UnknownDestinationFormat output_format)) st.

Definition transfer_row (source_pointer dest_pointer y : Z) (st : State) : State :=
  foldl (fun st x => transfer_pixel source_pointer dest_pointer y x st) st
        (seqZ 0 (get_field dt_output_width (g_regs st))).

Definition transfer_rows (source_pointer dest_pointer : Z) (st : State) : State :=
  foldl (fun st y => transfer_row source_pointer dest_pointer y st) st
        (seqZ 0 (get_field dt_output_height (g_regs st))).

(** The body of the [display_transfer_config.trigger] case. *)
Definition DisplayTransferTrigger (st : State) : State :=
  let regs := g_regs st in
  if Z.land (reg_at regs dt_trigger) 1 =? 0 then st
  else
    let input := DecodeAddressRegister (get_field dt_input_address regs) in
    let output := DecodeAddressRegister (get_field dt_output_address regs) in
    let source_pointer := resolve input in
    let dest_pointer := resolve output in
    emit (DebugLog (DisplayTriggerTransfer
                      (u32 (get_field dt_output_height regs
                            * get_field dt_output_width regs * 4))
                      input
                      (get_field dt_input_width regs)
                      (get_field dt_input_height regs)
                      output
                      (get_field dt_output_width regs)
                      (get_field dt_output_height regs)
                      (get_field dt_output_format regs)))
         (transfer_rows source_pointer dest_pointer st).

(** The body of the [command_processor_config.trigger] case. *)
Definition CommandProcessorTrigger (st : State) : State :=
  let regs := g_regs st in
  if Z.land (reg_at regs cp_trigger) 1 =? 0 then st
  else
    let buffer := resolve (DecodeAddressRegister (get_field cp_address regs)) in
    let size := u32 (Z.shiftl (get_field cp_size regs) 3) in
    emit (ProcessCommandList buffer size) st.

(** [template <typename T> void Write(u32 addr, const T data)] *)
Definition Write (T : Width) (addr data : Z) (st : State) : State :=
  let addr := u32 (addr - 0x1EF00000) in
  let index := addr / 4 in
  if (NumIds <=? index) || negb (is_u32 T) then
    emit (ErrorLog (UnknownWrite (bits T) data addr)) st
  else
    let st := set_regs (<[Z.to_nat index := u32 data]> (g_regs st)) st in
    if (index =? fill_value false) || (index =? fill_value true) then
      MemoryFillTrigger (negb (index =? fill_value false)) st
    else if index =? dt_trigger then DisplayTransferTrigger st
    else if index =? cp_trigger then CommandProcessorTrigger st
    else st.

(** [void Update()], with the tick count [Core::g_app_core->GetTicks()] and
    the flag [HLE::g_reschedule] as arguments. *)
Definition Update (current_ticks : Z) (g_reschedule : bool) (st : State) : Outcome :=
  let height := get_field (fb_height false) (g_regs st) in
  let st :=
    if kFrameTicks st <? u64 (current_ticks - g_last_frame_ticks st) then
      set_last_frame_ticks current_ticks (emit SwapBuffers st)
    else st in
  if g_reschedule then
    if height =? 0 then DivideError st
    else
      let st :=
        if kFrameTicks st / height <=? u64 (current_ticks - g_last_line_ticks st) then
          set_last_line_ticks current_ticks
            (set_cur_line (u32 (g_cur_line st + 1))
               (emit (SignalInterrupt PDC0) st))
        else st in
      let st :=
        if height <=? g_cur_line st then
          emit (SignalInterrupt PDC1) (set_cur_line 0 st)
        else st in
      Done st
  else Done st.

(** [void Init()], with [Settings::values.gpu_refresh_rate] and the tick
    count as arguments. *)
Definition Init (gpu_refresh_rate current_ticks : Z) (st : State) : Outcome :=
  if gpu_refresh_rate =? 0 then DivideError st
  else
    let cycles := u32 (Z.quot 268123480 gpu_refresh_rate) in
    let st := set_frame_period cycles (cycles / 3) st in
    let st := set_cur_line 0 st in
    let st := set_last_frame_ticks current_ticks
                (set_last_line_ticks current_ticks st) in
    let top := false in
    let sub := true in
    let regs := g_regs st in
    let regs := set_field (fb_address_left1 top) 0x181E6000 regs in
    let regs := set_field (fb_address_left2 top) 0x1822C800 regs in
    let regs := set_field (fb_address_right1 top) 0x18273000 regs in
    let regs := set_field (fb_address_right2 top) 0x182B9800 regs in
    let regs := set_field (fb_address_left1 sub) 0x1848F000 regs in
    let regs := set_field (fb_address_right1 sub) 0x184C7800 regs in
    let regs := set_field (fb_width top) 240 regs in
    let regs := set_field (fb_height top) 400 regs in
    let regs := set_field (fb_stride top) (3 * 240) regs in
    let regs := set_field (fb_color_format top) RGB8 regs in
    let regs := set_field (fb_active_fb top) 0 regs in
    let regs := set_field (fb_width sub) 240 regs in
    let regs := set_field (fb_height sub) 320 regs in
    let regs := set_field (fb_stride sub) (3 * 240) regs in
    let regs := set_field (fb_color_format sub) RGB8 regs in
    let regs := set_field (fb_active_fb sub) 0 regs in
    Done (emit (NoticeLog InitializedOK) (set_regs regs st)).

(** [void Shutdown()] *)
Definition Shutdown (st : State) : State := emit (NoticeLog ShutdownOK) st.

End GPU.

(** ** Sequences of calls, and observations on the trace *)

Section Runs.
Context `{RegsLayout} `{MemoryMap}.

(** The register file is the fixed-size array of [NumIds] words. *)
Definition wf_regs (st : State) : Prop :=
  length (g_regs st) = Z.to_nat NumIds.

(** Calls of [Update] with [HLE::g_reschedule] taken from [flags] while the
    tick counter stays at [current_ticks]; a division error ends the run. *)
Fixpoint advances (current_ticks : Z) (flags : list bool) (st : State) : Outcome :=
  match flags with
  | [] => Done st
  | g_reschedule :: flags' =>
      match Update current_ticks g_reschedule st with
      | Done st' => advances current_ticks flags' st'
      | DivideError st' => DivideError st'
      end
  end.

(** Calls of [Update] on a reschedule, one per tick count of [ticks]. *)
Fixpoint reschedules (ticks : list Z) (st : State) : Outcome :=
  match ticks with
  | [] => Done st
  | t :: ticks' =>
      match Update t true st with
      | Done st' => reschedules ticks' st'
      | DivideError st' => DivideError st'
      end
  end.

(** What the rest of the emulator may call. *)
Inductive Call :=
| CallInit (gpu_refresh_rate current_ticks : Z)
| CallRead (T : Width) (raw_addr : Z)
| CallWrite (T : Width) (addr data : Z)
| CallUpdate (current_ticks : Z) (g_reschedule : bool)
| CallShutdown.

Definition call (c : Call) (st : State) : Outcome :=
  match c with
  | CallInit rate t => Init rate t st
  | CallRead T a => Done (snd (Read T a st))
  | CallWrite T a d => Done (Write T a d st)
  | CallUpdate t r => Update t r st
  | CallShutdown => Done (Shutdown st)
  end.

Fixpoint calls (cs : list Call) (st : State) : Outcome :=
  match cs with
  | [] => Done st
  | c :: cs' =>
      match call c st with
      | Done st' => calls cs' st'
      | DivideError st' => DivideError st'
      end
  end.

(** The scanline counter is below the height of the primary framebuffer. *)
Definition line_in_frame (st : State) : Prop :=
  0 <= g_cur_line st < get_field (fb_height false) (g_regs st).

End Runs.

(** Each tick count is at least [period] after the one before it, the first
    one after [prev]; tick counts are [u64]. *)
Fixpoint spaced (period prev : Z) (ticks : list Z) : Prop :=
  match ticks with
  | [] => True
  | t :: ticks' => prev + period <= t < 2 ^ 64 /\ spaced period t ticks'
  end.

(** Everything in the state but host memory and the trace. *)
Definition core (st : State) : list Z * Z * Z * Z * Z * Z :=
  (g_regs st, g_cur_line st, g_last_line_ticks st, g_last_frame_ticks st,
   kFrameCycles st, kFrameTicks st).

Definition is_swap (e : Event) : bool :=
  match e with SwapBuffers => true | _ => false end.

Definition is_signal (id : InterruptId) (e : Event) : bool :=
  match e, id with
  | SignalInterrupt PDC0, PDC0 => true
  | SignalInterrupt PDC1, PDC1 => true
  | _, _ => false
  end.


Definition is_destination_format_error (e : Event) : bool :=
  match e with ErrorLog (UnknownDestinationFormat _) => true | _ => false end.

Definition count (P : Event -> bool) (tr : list Event) : nat :=
  length (List.filter P tr).

(** ** A concrete register map and memory map, to run the model

    Word positions follow the console's register map: fill units at words 4
    and 8, framebuffers at [0x117] and [0x157], display transfer at [0x300],
    command processor at [0x638]. *)

Definition word_at (index : Z) : Field := mkField index 0 32.

Definition fb_base (is_sub : bool) : Z := if is_sub then 0x157 else 0x117.

#[local] Instance ctr_layout : RegsLayout := {|
  NumIds := 0x1000;
  fill_address_start b := word_at (if b then 8 else 4);
  fill_address_end b := word_at (if b then 9 else 5);
  fb_address_left1 b := word_at (fb_base b + 3);
  fb_address_left2 b := word_at (fb_base b + 4);
  fb_address_right1 b := word_at (fb_base b + 14);
  fb_address_right2 b := word_at (fb_base b + 15);
  fb_width b := mkField (fb_base b) 0 16;
  fb_height b := mkField (fb_base b) 16 16;
  fb_stride b := word_at (fb_base b + 13);
  fb_color_format b := mkField (fb_base b + 5) 0 2;
  fb_active_fb b := word_at (fb_base b + 7);
  dt_input_address := word_at 0x300;
  dt_output_address := word_at 0x301;
  dt_output_width := mkField 0x302 0 16;
  dt_output_height := mkField 0x302 16 16;
  dt_input_width := mkField 0x303 0 16;
  dt_input_height := mkField 0x303 16 16;
  dt_input_format := mkField 0x304 8 3;
  dt_output_format := mkField 0x304 12 3;
  dt_trigger := 0x306;
  cp_size := word_at 0x638;
  cp_address := word_at 0x63A;
  cp_trigger := 0x63C;
  DecodeAddressRegister v := u32 (v * 8);
  RGBA8 := 0;
  RGB8 := 1
|}.

(** Video memory, physical [0x18000000..0x18600000), is mapped at virtual
    [0x1F000000] and backed by host memory at [0x40000000]; nothing else is
    backed, and [GetPointer] answers null there. *)
#[local] Instance vram_only : MemoryMap := {|
  PhysicalToVirtualAddress p :=
    if (0x18000000 <=? p) && (p <? 0x18600000) then p + 0x07000000 else p;
  GetPointer v :=
    if (0x1F000000 <=? v) && (v <? 0x1F600000) then 0x40000000 + (v - 0x1F000000)
    else 0
|}.

(** All registers and counters zero, host memory holding [fill] everywhere. *)
Definition blank (fill : Z) : State :=
  mkState (replicate (Z.to_nat 0x1000) 0) 0 0 0 0 0 (fun _ => fill) [].

(** The register address of word [index]. *)
Definition reg_addr (index : Z) : Z := 0x1EF00000 + 4 * index.

(** [blank] after the register writes of [ws] (index, value), in order. *)
Definition configured (fill : Z) (ws : list (Z * Z)) : State :=
  foldl (fun st w => Write W32 (reg_addr w.1) w.2 st) (blank fill) ws.

(** The state after [Init] at 60 frames per second and tick count 0. *)
Definition initialized : State := state_of (Init 60 0 (blank 0)).

(** [initialized] with the primary framebuffer shrunk to three lines. *)
Definition three_lines : State :=
  Write W32 (reg_addr 0x117) (3 * 2 ^ 16 + 240) initialized.

(** The number of words the fill loop visits from [start] up to [end_]. *)
Definition word_count (start end_ : Z) : Z :=
  if start <? end_ then (end_ - start + 3) / 4 else 0.

(** The stores of a fill from [start] up to [end_], in program order. *)
Definition fill_stores (start end_ v : Z) : list Event :=
  (fun k => Store32 (start + 4 * k) (u32 v)) <$> seqZ 0 (word_count start end_).

(** What one iteration of the transfer loop does for the one implemented
    format pair, reading the pixel at [srcptr] from memory [m] and writing it
    at [dstptr]: four loads, then three stores. *)
Definition pixel_accesses (m : Z -> Z) (srcptr dstptr : Z) : list Event :=
  [Load8 srcptr (u8 (m srcptr));
   Load8 (srcptr + 1) (u8 (m (srcptr + 1)));
   Load8 (srcptr + 2) (u8 (m (srcptr + 2)));
   Load8 (srcptr + 3) (u8 (m (srcptr + 3)));
   Store8 dstptr (u8 (m srcptr));
   Store8 (dstptr + 1) (u8 (m (srcptr + 1)));
   Store8 (dstptr + 2) (u8 (m (srcptr + 2)))].

(** The byte offsets of pixel ([y], [x]) in the source and in the destination
    of a display transfer, as the loop body computes them: two [u32] products,
    each added to the pointer. *)
Definition src_offset (input_width y x : Z) : Z :=
  u32 (x * 4) + u32 (y * input_width * 4).
Definition dst_offset (output_width y x : Z) : Z :=
  u32 (x * 3) + u32 (y * output_width * 3).

(** The pixels the two loops visit, in order: row by row, left to right. *)
Definition pixels (width height : Z) : list (Z * Z) :=
  y ← seqZ 0 height; x ← seqZ 0 width; [(y, x)].

Section PixelLists.
Context `{RegsLayout} `{MemoryMap}.

(** The loop body run over a list of pixels. *)
Definition transfer_pixels (source_pointer dest_pointer : Z) (l : list (Z * Z))
    (st : State) : State :=
  foldl (fun st p => transfer_pixel source_pointer dest_pointer p.1 p.2 st) st l.

End PixelLists.

(** A 2x2 transfer set up but not yet triggered: RGBA8 source of width 4 at
    physical [0x18000000], destination at physical [0x18000800] in format
    [output_format]; host memory holds a different byte at nearby addresses. *)
Definition transfer_ready (output_format : Z) : State :=
  set_memory (fun p => p mod 251)
    (configured 0 [(0x300, 0x3000000); (0x301, 0x3000100);
                   (0x302, 2 * 2 ^ 16 + 2); (0x303, 2 * 2 ^ 16 + 4);
                   (0x304, output_format * 2 ^ 12)]).


(** Two members of [Regs] that share no bit: they live in different words, or
    in disjoint bit ranges of one word. *)
Definition apart (f g : Field) : bool :=
  negb (Z.to_nat (f_index f) =? Z.to_nat (f_index g))%nat
  || ((0 <=? f_pos f) && (0 <=? f_bits f) && (0 <=? f_pos g) && (0 <=? f_bits g)
      && ((f_pos f + f_bits f <=? f_pos g) || (f_pos g + f_bits g <=? f_pos f))).

Section LayoutConditions.
Context `{RegsLayout}.

(** The height of the primary framebuffer is a field of at least 9 bits inside
    the register file, and none of the members [Init] assigns after it shares
    a bit with it. *)
Definition height_survives_init : bool :=
  let h := fb_height false in
  (0 <=? f_index h) && (f_index h <? NumIds) && (0 <=? f_pos h) && (9 <=? f_bits h)
  && forallb (apart h)
       [fb_stride false; fb_color_format false; fb_active_fb false;
        fb_width true; fb_height true; fb_stride true; fb_color_format true;
        fb_active_fb true].

End LayoutConditions.

(** ** Further observations on traces and layouts *)

Definition is_load (e : Event) : bool :=
  match e with Load8 _ _ => true | _ => false end.

Definition is_store (e : Event) : bool :=
  match e with Store8 _ _ | Store32 _ _ => true | _ => false end.

Definition is_source_format_error (e : Event) : bool :=
  match e with ErrorLog (UnknownSourceFormat _) => true | _ => false end.

(** What [Update] may append to the trace. *)
Definition is_timing_event (e : Event) : bool :=
  match e with SwapBuffers | SignalInterrupt _ => true | _ => false end.

(** An event of the transfer loops stays inside the rectangles: a load reads
    one of the four bytes of a source pixel, a store writes one of the three
    bytes of a destination pixel, for a row below [oh] and a column below
    [ow]; the only other events are the two format errors. *)
Definition transfer_event_ok (src dst iw ow oh : Z) (e : Event) : Prop :=
  match e with
  | Load8 p _ =>
      exists y x j, 0 <= y < oh /\ 0 <= x < ow /\ 0 <= j < 4
                    /\ p = src + src_offset iw y x + j
  | Store8 p _ =>
      exists y x k, 0 <= y < oh /\ 0 <= x < ow /\ 0 <= k < 3
                    /\ p = dst + dst_offset ow y x + k
  | ErrorLog (UnknownSourceFormat _) => True
  | ErrorLog (UnknownDestinationFormat _) => True
  | _ => False
  end.

(** Assigning members of [Regs] one after the other. *)
Definition assign (regs : list Z) (l : list (Field * Z)) : list Z :=
  foldl (fun r fv => set_field fv.1 fv.2 r) regs l.

(** No member of the list shares a bit with a later one. *)
Fixpoint later_apart (l : list (Field * Z)) : bool :=
  match l with
  | [] => true
  | fv :: l' => forallb (fun gw => apart fv.1 gw.1) l' && later_apart l'
  end.

Section InitAssignments.
Context `{RegsLayout}.

(** The member assignments of [Init], in program order. *)
Definition init_assignments : list (Field * Z) :=
  [(fb_address_left1 false, 0x181E6000);
   (fb_address_left2 false, 0x1822C800);
   (fb_address_right1 false, 0x18273000);
   (fb_address_right2 false, 0x182B9800);
   (fb_address_left1 true, 0x1848F000);
   (fb_address_right1 true, 0x184C7800);
   (fb_width false, 240);
   (fb_height false, 400);
   (fb_stride false, 3 * 240);
   (fb_color_format false, RGB8);
   (fb_active_fb false, 0);
   (fb_width true, 240);
   (fb_height true, 320);
   (fb_stride true, 3 * 240);
   (fb_color_format true, RGB8);
   (fb_active_fb true, 0)].

(** The member lies inside the register file and the value fits its bits. *)
Definition fits (fv : Field * Z) : bool :=
  (0 <=? f_index fv.1) && (f_index fv.1 <? NumIds) && (0 <=? f_pos fv.1)
  && (0 <=? f_bits fv.1) && (0 <=? fv.2) && (fv.2 <? 2 ^ f_bits fv.1).

(** The layout keeps the members [Init] assigns inside the register file and
    apart from each other, with room for the assigned values. *)
Definition init_fields_ok : bool :=
  forallb fits init_assignments && later_apart init_assignments.



End InitAssignments.

(** Fill unit 0 set up to start at physical [0x18000000], with the given end
    address register; host memory holds a different byte at nearby
    addresses. *)
Definition fill_ready (end_register : Z) : State :=
  set_memory (fun p => p mod 251)
    (configured 0 [(4, 0x3000000); (5, end_register)]).

(** A transfer from physical [0x18000000] (input width 4) to physical
    [0x18000800], set up but not yet triggered, with the given output size
    register and flags register. *)
Definition transfer_setup (output_size flags : Z) : State :=
  set_memory (fun p => p mod 251)
    (configured 0 [(0x300, 0x3000000); (0x301, 0x3000100); (0x302, output_size);
                   (0x303, 2 * 2 ^ 16 + 4); (0x304, flags)]).

(** A command list of size register 5 at physical [0x18000080]. *)
Definition command_list_ready : State :=
  configured 0 [(0x638, 5); (0x63A, 0x3000010)].

(** ** Accesses through pointers that are not backed by memory

    [Memory::GetPointer] hands back a raw pointer and the handlers use it as
    it comes.  [backed] tells which host addresses are backed by memory; an
    access to any other address (through the null pointer, for one) is an
    access fault, which ends the process.  The definitions below are the fill
    and transfer handlers again, with every access first looking at [backed]:
    a run either finishes or stops at the first access that faults, in the
    state reached before it. *)

Class HostMemory := { backed : Z -> bool }.

Inductive Run :=
| Finished (st : State)
| AccessFault (ptr : Z) (st : State).

Definition and_then (r : Run) (k : State -> Run) : Run :=
  match r with
  | Finished st => k st
  | AccessFault ptr st => AccessFault ptr st
  end.

Section Faulting.
Context `{RegsLayout} `{MemoryMap} `{HostMemory}.

(** The four bytes of a [u32] access. *)
Definition backed32 (ptr : Z) : bool :=
  backed ptr && backed (ptr + 1) && backed (ptr + 2) && backed (ptr + 3).

Definition load8_run (ptr : Z) (k : Z -> State -> Run) (st : State) : Run :=
  if backed ptr then k (load8 ptr st).1 (load8 ptr st).2 else AccessFault ptr st.

Definition store8_run (ptr v : Z) (st : State) : Run :=
  if backed ptr then Finished (store8 ptr v st) else AccessFault ptr st.

Definition store32_run (ptr v : Z) (st : State) : Run :=
  if backed32 ptr then Finished (store32 ptr v st) else AccessFault ptr st.

Fixpoint fill_loop_run (fuel : nat) (ptr end_ v : Z) (st : State) : Run :=
  match fuel with
  | O => Finished st
  | S fuel' =>
      if ptr <? end_ then
        and_then (store32_run ptr v st) (fill_loop_run fuel' (ptr + 4) end_ v)
      else Finished st
  end.

Definition MemoryFillTrigger_run (is_second_filler : bool) (st : State) : Run :=
  let regs := g_regs st in
  let address_start := get_field (fill_address_start is_second_filler) regs in
  let address_end := get_field (fill_address_end is_second_filler) regs in
  let value := reg_at regs (fill_value is_second_filler) in
  if address_start =? 0 then Finished st
  else
    let start := resolve (DecodeAddressRegister address_start) in
    let end_ := resolve (DecodeAddressRegister address_end) in
    and_then (fill_loop_run (Z.to_nat (end_ - start)) start end_ (bswap32 value) st)
      (fun st => Finished (emit (DebugLog (MemoryFill (DecodeAddressRegister address_start)
                                                      (DecodeAddressRegister address_end)))
                                st)).

Definition transfer_pixel_run (source_pointer dest_pointer y x : Z) (st : State) : Run :=
  let regs := g_regs st in
  let input_format := get_field dt_input_format regs in
  let output_format := get_field dt_output_format regs in
  let output (r g b : Z) (st : State) : Run :=
    if output_format =? RGB8 then
      let dstptr :=
        dest_pointer + u32 (x * 3) + u32 (y * get_field dt_output_width regs * 3) in
      and_then (store8_run dstptr r st)
        (fun st => and_then (store8_run (dstptr + 1) g st) (store8_run (dstptr + 2) b))
    else
      Finished (emit (ErrorLog (UnknownDestinationFormat output_format)) st) in
  if input_format =? RGBA8 then
    let srcptr :=
      source_pointer + u32 (x * 4) + u32 (y * get_field dt_input_width regs * 4) in
    load8_run srcptr (fun r =>
      load8_run (srcptr + 1) (fun g =>
        load8_run (srcptr + 2) (fun b =>
          load8_run (srcptr + 3) (fun a => output r g b)))) st
  else
    output 0 0 0 (emit (ErrorLog (UnknownSourceFormat input_format)) st).

Definition transfer_row_run (source_pointer dest_pointer y : Z) (st : State) : Run :=
  foldl (fun r x => and_then r (transfer_pixel_run source_pointer dest_pointer y x))
        (Finished st) (seqZ 0 (get_field dt_output_width (g_regs st))).

Definition transfer_rows_run (source_pointer dest_pointer : Z) (st : State) : Run :=
  foldl (fun r y => and_then r (transfer_row_run source_pointer dest_pointer y))
        (Finished st) (seqZ 0 (get_field dt_output_height (g_regs st))).

Definition DisplayTransferTrigger_run (st : State) : Run :=
  let regs := g_regs st in
  if Z.land (reg_at regs dt_trigger) 1 =? 0 then Finished st
  else
    let input := DecodeAddressRegister (get_field dt_input_address regs) in
    let output := DecodeAddressRegister (get_field dt_output_address regs) in
    and_then (transfer_rows_run (resolve input) (resolve output) st)
      (fun st =>
         Finished
           (emit (DebugLog (DisplayTriggerTransfer
                              (u32 (get_field dt_output_height regs
                                    * get_field dt_output_width regs * 4))
                              input
                              (get_field dt_input_width regs)
                              (get_field dt_input_height regs)
                              output
                              (get_field dt_output_width regs)
                              (get_field dt_output_height regs)
                              (get_field dt_output_format regs)))
                 st)).

(** [Write], with the accesses of its handlers able to fault.  The command
    processor case makes no access of its own. *)
Definition Write_run (T : Width) (addr data : Z) (st : State) : Run :=
  let addr := u32 (addr - 0x1EF00000) in
  let index := addr / 4 in
  if (NumIds <=? index) || negb (is_u32 T) then
    Finished (emit (ErrorLog (UnknownWrite (bits T) data addr)) st)
  else
    let st := set_regs (<[Z.to_nat index := u32 data]> (g_regs st)) st in
    if (index =? fill_value false) || (index =? fill_value true) then
      MemoryFillTrigger_run (negb (index =? fill_value false)) st
    else if index =? dt_trigger then DisplayTransferTrigger_run st
    else if index =? cp_trigger then Finished (CommandProcessorTrigger st)
    else Finished st.

End Faulting.

(** Only the host memory behind video memory is backed. *)
#[local] Instance vram_backed : HostMemory := {|
  backed p := (0x40000000 <=? p) && (p <? 0x40600000)
|}.

(** * Properties *)

Ltac split_comparisons :=
  repeat match goal with
    | |- context [?a <? ?b] => destruct (Z.ltb_spec a b)
    | |- context [?a <=? ?b] => destruct (Z.leb_spec a b)
    end.

(** ** Bytes and words *)

Lemma u8_range z : 0 <= u8 z < 256.
Proof. unfold u8. apply Z.mod_pos_bound. reflexivity. Qed.

Lemma u32_range z : 0 <= u32 z < 2 ^ 32.
Proof. unfold u32. apply Z.mod_pos_bound. reflexivity. Qed.

Lemma u32_small z : 0 <= z < 2 ^ 32 -> u32 z = z.
Proof. intros. unfold u32. apply Z.mod_small. assumption. Qed.

Lemma u64_small z : 0 <= z < 2 ^ 64 -> u64 z = z.
Proof. intros. unfold u64. apply Z.mod_small. assumption. Qed.

Lemma u8_idem z : u8 (u8 z) = u8 z.
Proof. unfold u8. apply Z.mod_mod. lia. Qed.

Lemma poke_same p v m : poke p v m p = u8 v.
Proof. unfold poke. rewrite Z.eqb_refl. reflexivity. Qed.

Lemma poke_other p q v m : q <> p -> poke p v m q = m q.
Proof. intros Hne. unfold poke. destruct (Z.eqb_spec q p); congruence. Qed.

(** ** What the handlers leave alone *)

Section Frame.
Context `{RegsLayout} `{MemoryMap}.

Lemma fill_loop_core fuel ptr end_ v st :
  core (fill_loop fuel ptr end_ v st) = core st.
Proof.
  revert ptr st. induction fuel as [|fuel IH]; intros ptr st; simpl; [reflexivity|].
  destruct (ptr <? end_); [|reflexivity]. rewrite IH. reflexivity.
Qed.

Lemma MemoryFillTrigger_core b st : core (MemoryFillTrigger b st) = core st.
Proof.
  unfold MemoryFillTrigger. destruct (_ =? 0); [reflexivity|].
  unfold fill_words.
  match goal with |- core (emit _ ?s) = _ => change (core s = core st) end.
  apply fill_loop_core.
Qed.

Lemma transfer_pixel_core src dst y x st :
  core (transfer_pixel src dst y x st) = core st.
Proof.
  unfold transfer_pixel.
  destruct (_ =? RGBA8); destruct (_ =? RGB8); reflexivity.
Qed.

Lemma foldl_core {A} (f : State -> A -> State) (l : list A) st :
  (forall s a, core (f s a) = core s) -> core (foldl f st l) = core st.
Proof.
  intros Hf. revert st. induction l as [|a l IH]; intros st; simpl; [reflexivity|].
  rewrite IH. apply Hf.
Qed.

Lemma transfer_row_core src dst y st : core (transfer_row src dst y st) = core st.
Proof. apply foldl_core. intros. apply transfer_pixel_core. Qed.

Lemma transfer_rows_core src dst st : core (transfer_rows src dst st) = core st.
Proof. apply foldl_core. intros. apply transfer_row_core. Qed.

Lemma DisplayTransferTrigger_core st : core (DisplayTransferTrigger st) = core st.
Proof.
  unfold DisplayTransferTrigger. destruct (_ =? 0); [reflexivity|].
  match goal with |- core (emit _ ?s) = _ => change (core s = core st) end.
  apply transfer_rows_core.
Qed.

Lemma CommandProcessorTrigger_core st : core (CommandProcessorTrigger st) = core st.
Proof. unfold CommandProcessorTrigger. destruct (_ =? 0); reflexivity. Qed.

Lemma core_regs st st' : core st = core st' -> g_regs st = g_regs st'.
Proof. unfold core. congruence. Qed.

Lemma core_cur_line st st' : core st = core st' -> g_cur_line st = g_cur_line st'.
Proof. unfold core. congruence. Qed.

(** A successful [Write] changes the register file at the written word only. *)
Lemma Write_regs addr data st :
  u32 (addr - 0x1EF00000) / 4 < NumIds ->
  g_regs (Write W32 addr data st)
  = <[Z.to_nat (u32 (addr - 0x1EF00000) / 4) := u32 data]> (g_regs st).
Proof.
  intros Hidx. unfold Write.
  destruct (Z.leb_spec NumIds (u32 (addr - 0x1EF00000) / 4)); [lia|]. simpl.
  set (st1 := set_regs _ st).
  change (<[_ := _]> (g_regs st)) with (g_regs st1).
  symmetry. apply core_regs.
  destruct (_ || _).
  - symmetry. apply MemoryFillTrigger_core.
  - destruct (_ =? dt_trigger); [symmetry; apply DisplayTransferTrigger_core|].
    destruct (_ =? cp_trigger); [symmetry; apply CommandProcessorTrigger_core|].
    reflexivity.
Qed.

End Frame.

(** ** Register accesses *)

Section RegisterFile.
Context `{RegsLayout} `{MemoryMap}.

Lemma index_nonneg addr : 0 <= u32 (addr - 0x1EF00000) / 4.
Proof. apply Z.div_pos; [apply u32_range | lia]. Qed.

Lemma reg_at_insert (regs : list Z) index v :
  0 <= index -> (Z.to_nat index < length regs)%nat ->
  reg_at (<[Z.to_nat index := v]> regs) index = v.
Proof.
  intros Hpos Hlt. unfold reg_at. rewrite list_lookup_insert_eq by assumption.
  reflexivity.
Qed.

(** C9: a [Read] or [Write] whose index is outside the register file, or whose
    access type is not [u32], stores no register word, runs no handler and
    touches neither the timing state nor host memory; the only thing it does
    is log one error line. *)
Theorem unsupported_access_only_logs T addr data st :
  NumIds <= u32 (addr - 0x1EF00000) / 4 \/ T <> W32 ->
  let a := u32 (addr - 0x1EF00000) in
  (Read T addr st).1 = None
  /\ core (Read T addr st).2 = core st
  /\ memory (Read T addr st).2 = memory st
  /\ trace (Read T addr st).2 = trace st ++ [ErrorLog (UnknownRead (bits T) a)]
  /\ core (Write T addr data st) = core st
  /\ memory (Write T addr data st) = memory st
  /\ trace (Write T addr data st)
     = trace st ++ [ErrorLog (UnknownWrite (bits T) data a)].
Proof.
  intros Hbad a. unfold Read, Write. fold a.
  assert ((NumIds <=? a / 4) || negb (is_u32 T) = true) as ->.
  { destruct Hbad as [Hidx|HT].
    - apply orb_true_iff. left. apply Z.leb_le. exact Hidx.
    - apply orb_true_iff. right. destruct T; try reflexivity. congruence. }
  repeat split.
Qed.

(** C3: for an index inside the register file, a 32-bit write followed by a
    32-bit read at the same address returns the written value, and whichever
    handler the write fired, the register file differs from the one before
    only in the written word. *)
Theorem write_then_read addr v st :
  wf_regs st ->
  0 <= v < 2 ^ 32 ->
  u32 (addr - 0x1EF00000) / 4 < NumIds ->
  (Read W32 addr (Write W32 addr v st)).1 = Some v
  /\ g_regs (Write W32 addr v st)
     = <[Z.to_nat (u32 (addr - 0x1EF00000) / 4) := v]> (g_regs st).
Proof.
  intros Hwf Hv Hidx.
  pose proof (index_nonneg addr) as Hpos.
  pose proof (Write_regs addr v st Hidx) as Hregs.
  rewrite (u32_small v Hv) in Hregs.
  split; [|exact Hregs].
  unfold Read.
  destruct (Z.leb_spec NumIds (u32 (addr - 0x1EF00000) / 4)); [lia|]. simpl.
  rewrite Hregs. f_equal. apply reg_at_insert; [exact Hpos|].
  rewrite Hwf. apply Z2Nat.inj_lt; lia.
Qed.

End RegisterFile.

Lemma unsupported_access_only_logs_witness :
  (@NumIds ctr_layout <= u32 (reg_addr 0x1000 - 0x1EF00000) / 4 \/ W32 <> W32)
  /\ (Read W32 (reg_addr 0x1000) (blank 0)).1 = None
  /\ trace (Write W32 (reg_addr 0x1000) 5 (blank 0))
     = [ErrorLog (UnknownWrite 32 5 0x4000)].
Proof.
  split; [left; vm_compute; discriminate|].
  pose proof (unsupported_access_only_logs W32 (reg_addr 0x1000) 5 (blank 0)) as Hx.
  simpl in Hx. destruct Hx as (Hr & _ & _ & _ & _ & _ & Hw).
  - left. vm_compute. discriminate.
  - split; [exact Hr | exact Hw].
Defined.

Lemma write_then_read_witness :
  wf_regs (blank 0) /\ 0 <= 0xCAFE < 2 ^ 32
  /\ u32 (reg_addr 0x117 - 0x1EF00000) / 4 < NumIds
  /\ (Read W32 (reg_addr 0x117) (Write W32 (reg_addr 0x117) 0xCAFE (blank 0))).1
     = Some 0xCAFE.
Proof.
  assert (wf_regs (blank 0)) as Hwf by reflexivity.
  assert (0 <= 0xCAFE < 2 ^ 32) as Hv by lia.
  assert (u32 (reg_addr 0x117 - 0x1EF00000) / 4 < NumIds) as Hidx by reflexivity.
  split; [exact Hwf|]. split; [exact Hv|]. split; [exact Hidx|].
  exact (proj1 (write_then_read (reg_addr 0x117) 0xCAFE (blank 0) Hwf Hv Hidx)).
Defined.

(** ** Counting events *)

Lemma count_app P (l l' : list Event) : count P (l ++ l') = (count P l + count P l')%nat.
Proof. unfold count. rewrite List.filter_app, length_app. reflexivity. Qed.

Lemma count_snoc P (l : list Event) e :
  count P (l ++ [e]) = (count P l + if P e then 1 else 0)%nat.
Proof. rewrite count_app. unfold count. simpl. destruct (P e); reflexivity. Qed.

(** ** The timing state machine *)

Section Timing.
Context `{RegsLayout} `{MemoryMap}.

(** What one call of [Update] does to the frame side of the state. *)
Lemma Update_frame t r st :
  let due := kFrameTicks st <? u64 (t - g_last_frame_ticks st) in
  let st' := state_of (Update t r st) in
  kFrameTicks st' = kFrameTicks st
  /\ g_last_frame_ticks st' = (if due then t else g_last_frame_ticks st)
  /\ count is_swap (trace st') = (count is_swap (trace st) + if due then 1 else 0)%nat.
Proof.
  unfold Update.
  destruct (kFrameTicks st <? u64 (t - g_last_frame_ticks st));
    destruct r; simpl;
    repeat match goal with
      | |- context [if ?c then _ else _] => destruct c; simpl
      end;
    rewrite ?count_snoc; simpl; repeat split; lia.
Qed.

Lemma not_due_after_swap t st :
  0 <= kFrameTicks st -> g_last_frame_ticks st = t ->
  (kFrameTicks st <? u64 (t - g_last_frame_ticks st)) = false.
Proof.
  intros Hk ->. rewrite Z.sub_diag. apply Z.ltb_ge. exact Hk.
Qed.

Lemma advances_without_swap t flags st :
  (kFrameTicks st <? u64 (t - g_last_frame_ticks st)) = false ->
  count is_swap (trace (state_of (advances t flags st))) = count is_swap (trace st).
Proof.
  revert st. induction flags as [|r flags IH]; intros st Hnot; simpl; [reflexivity|].
  pose proof (Update_frame t r st) as Hu. simpl in Hu. rewrite Hnot in Hu.
  destruct Hu as (Hk & Hl & Hc).
  destruct (Update t r st) as [st'|st']; simpl in *.
  - rewrite IH; [lia|]. rewrite Hk, Hl. exact Hnot.
  - lia.
Qed.

(** C5: a call of [Update] swaps the buffers exactly when the tick count is
    more than [kFrameTicks] past [g_last_frame_ticks] (an unsigned 64-bit
    difference), a swap records the tick count as the new
    [g_last_frame_ticks], and so calls repeated at one tick count swap at
    most once. *)
Theorem swap_iff_frame_elapsed t r st :
  let due := kFrameTicks st <? u64 (t - g_last_frame_ticks st) in
  let st' := state_of (Update t r st) in
  count is_swap (trace st') = (count is_swap (trace st) + if due then 1 else 0)%nat
  /\ g_last_frame_ticks st' = (if due then t else g_last_frame_ticks st)
  /\ (0 <= kFrameTicks st ->
      forall flags,
        (count is_swap (trace (state_of (advances t flags st)))
         <= count is_swap (trace st) + 1)%nat).
Proof.
  intros due st'.
  destruct (Update_frame t r st) as (_ & Hl & Hc).
  split; [exact Hc|]. split; [exact Hl|].
  intros Hk flags. destruct flags as [|r1 flags]; simpl; [lia|].
  destruct (Update_frame t r1 st) as (Hk1 & Hl1 & Hc1).
  destruct (Update t r1 st) as [st1|st1]; simpl in *.
  - rewrite advances_without_swap.
    + rewrite Hc1. destruct (_ <? _); lia.
    + destruct (kFrameTicks st <? u64 (t - g_last_frame_ticks st)) eqn:Hdue.
      * apply not_due_after_swap; [lia | exact Hl1].
      * rewrite Hk1, Hl1. exact Hdue.
  - rewrite Hc1. destruct (_ <? _); lia.
Qed.

End Timing.

Section Scanlines.
Context `{RegsLayout} `{MemoryMap}.

(** One call of [Update] on a reschedule, a line period or more after the last
    scanline. *)
Lemma Update_line_step t st c :
  let h := get_field (fb_height false) (g_regs st) in
  0 < h < 2 ^ 32 ->
  g_cur_line st = c -> 0 <= c < h ->
  kFrameTicks st / h <= u64 (t - g_last_line_ticks st) ->
  exists st',
    Update t true st = Done st'
    /\ g_regs st' = g_regs st
    /\ kFrameTicks st' = kFrameTicks st
    /\ g_last_line_ticks st' = t
    /\ g_cur_line st' = (if c + 1 <? h then c + 1 else 0)
    /\ count (is_signal PDC1) (trace st')
       = (count (is_signal PDC1) (trace st) + if (c + 1 <? h)%Z then 0 else 1)%nat.
Proof.
  intros h Hh Hc Hrange Hline. unfold Update. fold h.
  destruct (Z.eqb_spec h 0) as [|_]; [lia|].
  set (st1 := if kFrameTicks st <? _ then _ else st).
  assert (g_regs st1 = g_regs st /\ kFrameTicks st1 = kFrameTicks st
          /\ g_last_line_ticks st1 = g_last_line_ticks st
          /\ g_cur_line st1 = c
          /\ count (is_signal PDC1) (trace st1) = count (is_signal PDC1) (trace st))
    as (Hr1 & Hk1 & Hl1 & Hc1 & Hn1).
  { subst st1. destruct (_ <? _); simpl; rewrite ?count_snoc; simpl;
      repeat split; try assumption; lia. }
  rewrite Hk1, Hl1.
  destruct (Z.leb_spec (kFrameTicks st / h) (u64 (t - g_last_line_ticks st))); [|lia].
  cbn [g_cur_line set_last_line_ticks set_cur_line emit]. rewrite Hc1.
  rewrite (u32_small (c + 1)) by lia.
  destruct (Z.leb_spec h (c + 1)); destruct (Z.ltb_spec (c + 1) h); try lia;
    eexists; (split; [reflexivity|]); simpl; rewrite ?count_snoc, ?Hn1; simpl;
    repeat split; try assumption; lia.
Qed.

Lemma reschedules_lines ts : forall st c,
  let h := get_field (fb_height false) (g_regs st) in
  let n := Z.of_nat (length ts) in
  0 < h < 2 ^ 32 ->
  0 <= kFrameTicks st ->
  g_cur_line st = c -> 0 <= c < h -> c + n <= h ->
  0 <= g_last_line_ticks st ->
  spaced (kFrameTicks st / h) (g_last_line_ticks st) ts ->
  exists st',
    reschedules ts st = Done st'
    /\ g_cur_line st' = (if c + n <? h then c + n else 0)
    /\ count (is_signal PDC1) (trace st')
       = (count (is_signal PDC1) (trace st) + if (c + n <? h)%Z then 0 else 1)%nat.
Proof.
  induction ts as [|t ts IH]; intros st c h n Hh Hk Hc Hrange Hfit Hlast Hsp.
  - exists st. subst n. simpl. rewrite Z.add_0_r.
    destruct (Z.ltb_spec c h); [|lia]. repeat split; [assumption | lia].
  - destruct Hsp as [Ht Hsp]. subst n. rewrite length_cons, Nat2Z.inj_succ in *.
    assert (0 <= kFrameTicks st / h) as Hperiod by (apply Z.div_pos; lia).
    destruct (Update_line_step t st c) as (st1 & Hup & Hr1 & Hk1 & Hl1 & Hc1 & Hn1);
      try assumption.
    { fold h. rewrite u64_small by lia. lia. }
    fold h in Hc1, Hn1. cbn [reschedules]. rewrite Hup.
    destruct (Z.ltb_spec (c + 1) h) as [Hlt|Hge].
    + destruct (IH st1 (c + 1)) as (st2 & Hrun & Hc2 & Hn2);
        rewrite ?Hr1, ?Hk1, ?Hl1; fold h; try assumption; try lia.
      rewrite Hr1 in Hc2, Hn2. fold h in Hc2, Hn2.
      exists st2. split; [exact Hrun|].
      replace (c + Z.succ (Z.of_nat (length ts))) with (c + 1 + Z.of_nat (length ts)) by lia.
      split; [exact Hc2|]. rewrite Hn2, Hn1. lia.
    + assert (ts = []) as -> by (destruct ts; [reflexivity | simpl in Hfit; lia]).
      exists st1. simpl. split; [reflexivity|].
      change (c + Z.succ (Z.of_nat 0)) with (c + 1).
      destruct (Z.ltb_spec (c + 1) h); [lia|]. split; assumption.
Qed.

(** C6: from scanline 0 with primary height [h > 0], [h] calls of [Update] on
    a reschedule, the first at least a line period [kFrameTicks / h] after
    [g_last_line_ticks] and each at least a line period after the one before,
    signal PDC1 exactly once and leave the scanline counter at 0.  A call of
    [Update] without a reschedule signals neither PDC0 nor PDC1 and leaves the
    counter alone, whatever the tick count; all it may do is swap buffers. *)
Theorem vblank_once_per_frame :
  (forall ts st,
     let h := get_field (fb_height false) (g_regs st) in
     0 < h < 2 ^ 32 ->
     0 <= kFrameTicks st ->
     0 <= g_last_line_ticks st ->
     g_cur_line st = 0 ->
     Z.of_nat (length ts) = h ->
     spaced (kFrameTicks st / h) (g_last_line_ticks st) ts ->
     exists st',
       reschedules ts st = Done st'
       /\ g_cur_line st' = 0
       /\ count (is_signal PDC1) (trace st') = S (count (is_signal PDC1) (trace st)))
  /\ (forall t st,
        exists st',
          Update t false st = Done st'
          /\ g_cur_line st' = g_cur_line st
          /\ trace st'
             = trace st ++ (if kFrameTicks st <? u64 (t - g_last_frame_ticks st)
                            then [SwapBuffers] else [])).
Proof.
  split.
  - intros ts st h Hh Hk Hlast Hc Hlen Hsp.
    destruct (reschedules_lines ts st 0) as (st' & Hrun & Hc' & Hn');
      fold h; try assumption; try lia.
    fold h in Hc', Hn'. rewrite Hlen, Z.add_0_l, Z.ltb_irrefl in *.
    exists st'. split; [exact Hrun|]. split; [exact Hc'|]. lia.
  - intros t st. unfold Update. destruct (_ <? _); eexists; simpl.
    + repeat split.
    + rewrite app_nil_r. repeat split.
Qed.

End Scanlines.

Lemma swap_iff_frame_elapsed_witness :
  0 <= kFrameTicks initialized
  /\ count is_swap (trace (state_of (Update 1489575 true initialized))) = 1%nat
  /\ g_last_frame_ticks (state_of (Update 1489575 true initialized)) = 1489575
  /\ (count is_swap
        (trace (state_of (advances 1489575 [true; false; true] initialized))) <= 1)%nat.
Proof.
  assert (0 <= kFrameTicks initialized) as Hk by (vm_compute; discriminate).
  pose proof (swap_iff_frame_elapsed 1489575 true initialized) as (Hc & Hl & Hs).
  split; [exact Hk|]. split; [exact Hc|]. split; [exact Hl|].
  exact (Hs Hk [true; false; true]).
Defined.

Lemma vblank_once_per_frame_witness :
  0 < get_field (fb_height false) (g_regs three_lines) < 2 ^ 32
  /\ 0 <= kFrameTicks three_lines
  /\ 0 <= g_last_line_ticks three_lines
  /\ g_cur_line three_lines = 0
  /\ Z.of_nat (length [496524; 993048; 1489572])
     = get_field (fb_height false) (g_regs three_lines)
  /\ spaced (kFrameTicks three_lines / get_field (fb_height false) (g_regs three_lines))
            (g_last_line_ticks three_lines) [496524; 993048; 1489572]
  /\ exists st',
       reschedules [496524; 993048; 1489572] three_lines = Done st'
       /\ g_cur_line st' = 0
       /\ count (is_signal PDC1) (trace st')
          = S (count (is_signal PDC1) (trace three_lines)).
Proof.
  assert (0 < get_field (fb_height false) (g_regs three_lines) < 2 ^ 32) as Hh
    by (vm_compute; split; reflexivity).
  assert (0 <= kFrameTicks three_lines) as Hk by (vm_compute; discriminate).
  assert (0 <= g_last_line_ticks three_lines) as Hl by (vm_compute; discriminate).
  assert (g_cur_line three_lines = 0) as Hc by reflexivity.
  assert (Z.of_nat (length [496524; 993048; 1489572])
          = get_field (fb_height false) (g_regs three_lines)) as Hn
    by (vm_compute; reflexivity).
  assert (spaced (kFrameTicks three_lines / get_field (fb_height false) (g_regs three_lines))
            (g_last_line_ticks three_lines) [496524; 993048; 1489572]) as Hsp
    by (vm_compute; repeat split; discriminate).
  repeat (split; [assumption|]).
  exact (proj1 vblank_once_per_frame _ _ Hh Hk Hl Hc Hn Hsp).
Defined.

(** ** The memory fill loop *)

Lemma word_count_nonneg start end_ : 0 <= word_count start end_.
Proof.
  unfold word_count. destruct (Z.ltb_spec start end_); [|lia].
  apply Z.div_pos; lia.
Qed.

Lemma word_count_done ptr end_ : end_ <= ptr -> word_count ptr end_ = 0.
Proof. intros. unfold word_count. destruct (Z.ltb_spec ptr end_); [lia | reflexivity]. Qed.

Lemma word_count_step ptr end_ :
  ptr < end_ -> word_count ptr end_ = 1 + word_count (ptr + 4) end_.
Proof.
  intros Hlt. unfold word_count.
  destruct (Z.ltb_spec ptr end_); [|lia].
  destruct (Z.ltb_spec (ptr + 4) end_).
  - replace (end_ - ptr + 3) with (end_ - (ptr + 4) + 3 + 1 * 4) by lia.
    rewrite Z.div_add by lia. lia.
  - symmetry. apply Z.div_unique with (r := end_ - ptr - 1); lia.
Qed.

(** A word lies below [end_] exactly when the loop reaches it. *)
Lemma word_count_spec start end_ k :
  0 <= k -> (start + 4 * k < end_ <-> k < word_count start end_).
Proof.
  intros Hk. unfold word_count. destruct (Z.ltb_spec start end_); [|lia].
  split; intros Hlt.
  - assert (k + 1 <= (end_ - start + 3) / 4)
      by (apply Z.div_le_lower_bound; lia).
    lia.
  - assert (4 * ((end_ - start + 3) / 4) <= end_ - start + 3)
      by (apply Z.mul_div_le; lia).
    lia.
Qed.

Lemma fill_stores_step ptr end_ v :
  ptr < end_ ->
  fill_stores ptr end_ v = Store32 ptr (u32 v) :: fill_stores (ptr + 4) end_ v.
Proof.
  intros Hlt. unfold fill_stores. rewrite (word_count_step ptr end_ Hlt).
  pose proof (word_count_nonneg (ptr + 4) end_) as Hn.
  rewrite seqZ_cons by lia. rewrite fmap_cons. f_equal.
  - f_equal. lia.
  - replace (Z.pred (1 + word_count (ptr + 4) end_)) with (word_count (ptr + 4) end_) by lia.
    change (Z.succ 0) with (1 + 0). rewrite <- fmap_add_seqZ, <- list_fmap_compose.
    apply list_fmap_ext. intros _ k _. simpl. f_equal. lia.
Qed.

Lemma store32_memory ptr v st q :
  memory (store32 ptr v st) q
  = if (ptr <=? q) && (q <? ptr + 4) then u8 (Z.shiftr v (8 * (q - ptr)))
    else memory st q.
Proof.
  unfold store32, poke. simpl.
  destruct (Z.eqb_spec q (ptr + 3)) as [->|H3].
  { replace (ptr + 3 - ptr) with 3 by lia.
    destruct (Z.leb_spec ptr (ptr + 3)), (Z.ltb_spec (ptr + 3) (ptr + 4)); try lia.
    reflexivity. }
  destruct (Z.eqb_spec q (ptr + 2)) as [->|H2].
  { replace (ptr + 2 - ptr) with 2 by lia.
    destruct (Z.leb_spec ptr (ptr + 2)), (Z.ltb_spec (ptr + 2) (ptr + 4)); try lia.
    reflexivity. }
  destruct (Z.eqb_spec q (ptr + 1)) as [->|H1].
  { replace (ptr + 1 - ptr) with 1 by lia.
    destruct (Z.leb_spec ptr (ptr + 1)), (Z.ltb_spec (ptr + 1) (ptr + 4)); try lia.
    reflexivity. }
  destruct (Z.eqb_spec q ptr) as [->|H0].
  { rewrite Z.sub_diag.
    destruct (Z.leb_spec ptr ptr), (Z.ltb_spec ptr (ptr + 4)); try lia.
    reflexivity. }
  destruct (Z.leb_spec ptr q), (Z.ltb_spec q (ptr + 4)); try reflexivity. lia.
Qed.

Section FillLoop.
Context `{RegsLayout} `{MemoryMap}.

(** With the fuel [fill_words] gives it, the loop runs until [ptr] has reached
    [end_]: its stores are all of [fill_stores]. *)
Lemma fill_loop_trace end_ v fuel : forall ptr st,
  (Z.to_nat (end_ - ptr) <= fuel)%nat ->
  trace (fill_loop fuel ptr end_ v st) = trace st ++ fill_stores ptr end_ v.
Proof.
  induction fuel as [|fuel IH]; intros ptr st Hfuel; simpl.
  - unfold fill_stores. rewrite word_count_done by lia.
    rewrite seqZ_nil by lia. rewrite app_nil_r. reflexivity.
  - destruct (Z.ltb_spec ptr end_) as [Hlt|Hge].
    + rewrite IH by lia. rewrite (fill_stores_step ptr end_ v Hlt).
      simpl. rewrite <- app_assoc. reflexivity.
    + unfold fill_stores. rewrite word_count_done by lia.
      rewrite seqZ_nil by lia. rewrite app_nil_r. reflexivity.
Qed.

Lemma fill_loop_memory end_ v fuel : forall ptr st q,
  (Z.to_nat (end_ - ptr) <= fuel)%nat ->
  memory (fill_loop fuel ptr end_ v st) q
  = if (ptr <=? q) && (q <? ptr + 4 * word_count ptr end_)
    then u8 (Z.shiftr v (8 * ((q - ptr) mod 4)))
    else memory st q.
Proof.
  induction fuel as [|fuel IH]; intros ptr st q Hfuel; simpl.
  - rewrite word_count_done by lia.
    destruct (Z.leb_spec ptr q), (Z.ltb_spec q (ptr + 4 * 0)); try reflexivity. lia.
  - destruct (Z.ltb_spec ptr end_) as [Hlt|Hge].
    + rewrite IH by lia. rewrite (word_count_step ptr end_ Hlt).
      pose proof (word_count_nonneg (ptr + 4) end_) as Hn.
      rewrite store32_memory.
      destruct (Z.leb_spec (ptr + 4) q), (Z.ltb_spec q (ptr + 4 + 4 * word_count (ptr + 4) end_));
        destruct (Z.leb_spec ptr q), (Z.ltb_spec q (ptr + 4 * (1 + word_count (ptr + 4) end_)));
        destruct (Z.ltb_spec q (ptr + 4)); simpl; try lia; try reflexivity.
      * f_equal. f_equal. f_equal.
        replace (q - ptr) with (q - (ptr + 4) + 1 * 4) by lia.
        symmetry. apply Z.mod_add. lia.
      * f_equal. f_equal. f_equal. symmetry. apply Z.mod_small. lia.
    + rewrite word_count_done by lia.
      destruct (Z.leb_spec ptr q), (Z.ltb_spec q (ptr + 4 * 0)); try reflexivity. lia.
Qed.

End FillLoop.

(** ** Words in host memory *)

Lemma bswap32_range v : 0 <= bswap32 v < 2 ^ 32.
Proof.
  assert (Z.land (bswap32 v) (Z.ones 32) = bswap32 v) as Hland.
  { apply Z.bits_inj'. intros n Hn.
    rewrite Z.land_spec, Z.testbit_ones by lia. unfold bswap32.
    change 255 with (Z.ones 8).
    rewrite !Z.lor_spec, !Z.shiftl_spec, !Z.land_spec, !Z.testbit_ones by lia.
    split_comparisons; try lia;
      rewrite ?andb_false_r, ?andb_true_r, ?orb_false_r; reflexivity. }
  rewrite <- Hland, Z.land_ones by lia. apply Z.mod_pos_bound. reflexivity.
Qed.

Lemma bytes_of_word v :
  u8 v + 2 ^ 8 * u8 (Z.shiftr v 8) + 2 ^ 16 * u8 (Z.shiftr v 16)
  + 2 ^ 24 * u8 (Z.shiftr v 24) = u32 v.
Proof.
  unfold u8, u32. rewrite !Z.shiftr_div_pow2 by lia.
  change (2 ^ 32) with (2 ^ 8 * (2 ^ 8 * (2 ^ 8 * 2 ^ 8))).
  rewrite (Z.rem_mul_r v (2 ^ 8)) by lia.
  rewrite (Z.rem_mul_r (v / 2 ^ 8) (2 ^ 8)) by lia.
  rewrite (Z.rem_mul_r (v / 2 ^ 8 / 2 ^ 8) (2 ^ 8)) by lia.
  rewrite !Z.div_div by lia.
  change (2 ^ 8 * 2 ^ 8) with (2 ^ 16).
  change (2 ^ 16 * 2 ^ 8) with (2 ^ 24). lia.
Qed.

(** A word whose four bytes are those [store32] writes reads back as the
    stored value. *)
Lemma peek32_bytes (m : Z -> Z) ptr v :
  (forall j, 0 <= j < 4 -> m (ptr + j) = u8 (Z.shiftr v (8 * j))) ->
  peek32 m ptr = u32 v.
Proof.
  intros Hm. unfold peek32.
  pose proof (Hm 0) as H0. pose proof (Hm 1) as H1.
  pose proof (Hm 2) as H2. pose proof (Hm 3) as H3.
  rewrite Z.add_0_r in H0.
  rewrite H0, H1, H2, H3 by lia. rewrite !u8_idem.
  change (8 * 0) with 0. rewrite Z.shiftr_0_r.
  apply bytes_of_word.
Qed.

(** ** Dispatch of a register write *)

Section Dispatch.
Context `{RegsLayout} `{MemoryMap}.

Lemma Write_fill b addr data st :
  u32 (addr - 0x1EF00000) / 4 = fill_value b ->
  fill_value b < NumIds ->
  Write W32 addr data st
  = MemoryFillTrigger b
      (set_regs (<[Z.to_nat (fill_value b) := u32 data]> (g_regs st)) st).
Proof.
  intros Hidx Hlt. unfold Write. rewrite Hidx.
  destruct (Z.leb_spec NumIds (fill_value b)); [lia|].
  destruct b; reflexivity.
Qed.

Lemma Write_display_transfer addr data st :
  u32 (addr - 0x1EF00000) / 4 = dt_trigger ->
  dt_trigger < NumIds ->
  dt_trigger <> fill_value false -> dt_trigger <> fill_value true ->
  Write W32 addr data st
  = DisplayTransferTrigger
      (set_regs (<[Z.to_nat dt_trigger := u32 data]> (g_regs st)) st).
Proof.
  intros Hidx Hlt Hf0 Hf1. unfold Write. rewrite Hidx.
  destruct (Z.leb_spec NumIds dt_trigger); [lia|].
  destruct (Z.eqb_spec dt_trigger (fill_value false)); [congruence|].
  destruct (Z.eqb_spec dt_trigger (fill_value true)); [congruence|].
  rewrite Z.eqb_refl. reflexivity.
Qed.

Lemma Write_command_processor addr data st :
  u32 (addr - 0x1EF00000) / 4 = cp_trigger ->
  cp_trigger < NumIds ->
  cp_trigger <> fill_value false -> cp_trigger <> fill_value true ->
  cp_trigger <> dt_trigger ->
  Write W32 addr data st
  = CommandProcessorTrigger
      (set_regs (<[Z.to_nat cp_trigger := u32 data]> (g_regs st)) st).
Proof.
  intros Hidx Hlt Hf0 Hf1 Hdt. unfold Write. rewrite Hidx.
  destruct (Z.leb_spec NumIds cp_trigger); [lia|].
  destruct (Z.eqb_spec cp_trigger (fill_value false)); [congruence|].
  destruct (Z.eqb_spec cp_trigger (fill_value true)); [congruence|].
  destruct (Z.eqb_spec cp_trigger dt_trigger); [congruence|].
  rewrite Z.eqb_refl. reflexivity.
Qed.

(** The word just written reads as zero after a write of zero, whether or not
    the index is inside the list. *)
Lemma reg_at_insert_zero (regs : list Z) index :
  reg_at (<[Z.to_nat index := 0]> regs) index = 0.
Proof.
  unfold reg_at. destruct (decide (Z.to_nat index < length regs)%nat).
  - rewrite list_lookup_insert_eq by assumption. reflexivity.
  - rewrite list_insert_ge by lia. rewrite lookup_ge_None_2 by lia. reflexivity.
Qed.

(** The fill handler when the start address register is zero, and when it is
    not. *)
Lemma MemoryFillTrigger_idle b st :
  get_field (fill_address_start b) (g_regs st) = 0 -> MemoryFillTrigger b st = st.
Proof. intros Hz. unfold MemoryFillTrigger. rewrite Hz. reflexivity. Qed.

Lemma MemoryFillTrigger_runs b st :
  let address_start := get_field (fill_address_start b) (g_regs st) in
  let address_end := get_field (fill_address_end b) (g_regs st) in
  let start := resolve (DecodeAddressRegister address_start) in
  let end_ := resolve (DecodeAddressRegister address_end) in
  let v := bswap32 (reg_at (g_regs st) (fill_value b)) in
  address_start <> 0 ->
  trace (MemoryFillTrigger b st)
  = trace st ++ fill_stores start end_ v
      ++ [DebugLog (MemoryFill (DecodeAddressRegister address_start)
                               (DecodeAddressRegister address_end))]
  /\ forall q,
       memory (MemoryFillTrigger b st) q
       = if (start <=? q) && (q <? start + 4 * word_count start end_)
         then u8 (Z.shiftr v (8 * ((q - start) mod 4)))
         else memory st q.
Proof.
  intros address_start address_end start end_ v Hnz.
  unfold MemoryFillTrigger. fold address_start address_end.
  destruct (Z.eqb_spec address_start 0); [congruence|].
  fold start end_ v. unfold fill_words. simpl. split.
  - rewrite fill_loop_trace by lia. rewrite <- app_assoc. reflexivity.
  - intros q. apply fill_loop_memory. lia.
Qed.

End Dispatch.

(** ** Memory fill *)

Section MemoryFillEngine.
Context `{RegsLayout} `{MemoryMap}.

(** C2: a write of [V] to the value register of a fill unit whose start
    address register is non-zero leaves [bswap32 V] in every 32-bit word from
    the resolved start pointer up to (not including) the resolved end pointer;
    where the translation maps the physical range contiguously, these are the
    words of the physical range from the start address up to the end address.
    If the start address register is zero the write touches no memory and
    issues no access. *)
Theorem fill_writes_reversed_value b addr V st :
  wf_regs st ->
  0 <= V < 2 ^ 32 ->
  u32 (addr - 0x1EF00000) / 4 = fill_value b ->
  fill_value b < NumIds ->
  let regs := <[Z.to_nat (fill_value b) := V]> (g_regs st) in
  let address_start := get_field (fill_address_start b) regs in
  let address_end := get_field (fill_address_end b) regs in
  let start := resolve (DecodeAddressRegister address_start) in
  let end_ := resolve (DecodeAddressRegister address_end) in
  let st' := Write W32 addr V st in
  (address_start <> 0 ->
   (forall k, 0 <= k -> start + 4 * k < end_ ->
              peek32 (memory st') (start + 4 * k) = bswap32 V)
   /\ ((forall a, DecodeAddressRegister address_start <= a
                  <= DecodeAddressRegister address_end ->
                  resolve a = start + (a - DecodeAddressRegister address_start)) ->
       forall a, DecodeAddressRegister address_start <= a
                 < DecodeAddressRegister address_end ->
                 (a - DecodeAddressRegister address_start) mod 4 = 0 ->
                 peek32 (memory st') (resolve a) = bswap32 V))
  /\ (address_start = 0 -> memory st' = memory st /\ trace st' = trace st).
Proof.
  intros Hwf HV Hidx Hlt regs address_start address_end start end_ st'.
  assert (st' = MemoryFillTrigger b (set_regs regs st)) as Hst'.
  { subst st' regs. rewrite (Write_fill b) by assumption.
    rewrite (u32_small V HV). reflexivity. }
  assert (reg_at regs (fill_value b) = V) as Hvalue.
  { assert (0 <= fill_value b) by (destruct b; vm_compute; discriminate).
    subst regs. apply reg_at_insert; [assumption|].
    rewrite Hwf. apply Z2Nat.inj_lt; lia. }
  assert (address_start <> 0 ->
          forall k, 0 <= k -> start + 4 * k < end_ ->
                    peek32 (memory st') (start + 4 * k) = bswap32 V) as Hwords.
  { intros Hnz k Hk Hbelow.
    destruct (MemoryFillTrigger_runs b (set_regs regs st) Hnz) as [_ Hmem].
    simpl in Hmem. fold address_start address_end start end_ in Hmem.
    rewrite Hvalue in Hmem.
    rewrite <- (u32_small (bswap32 V) (bswap32_range V)).
    apply peek32_bytes. intros j Hj. rewrite Hst', Hmem.
    apply word_count_spec in Hbelow; [|exact Hk].
    destruct (Z.leb_spec start (start + 4 * k + j)); [|lia].
    destruct (Z.ltb_spec (start + 4 * k + j) (start + 4 * word_count start end_)); [|lia].
    simpl. f_equal. f_equal. f_equal.
    replace (start + 4 * k + j - start) with (j + k * 4) by lia.
    rewrite Z.mod_add by lia. apply Z.mod_small. lia. }
  split.
  - intros Hnz. split; [exact (Hwords Hnz)|].
    intros Hlinear a Ha Haligned.
    pose proof (Z.div_mod (a - DecodeAddressRegister address_start) 4) as Hdm.
    rewrite Haligned in Hdm.
    set (k := (a - DecodeAddressRegister address_start) / 4) in *.
    assert (0 <= k) by (apply Z.div_pos; lia).
    rewrite (Hlinear a) by lia.
    replace (a - DecodeAddressRegister address_start) with (4 * k) by lia.
    apply (Hwords Hnz); [assumption|].
    unfold end_. rewrite (Hlinear (DecodeAddressRegister address_end)) by lia. lia.
  - intros Hz. rewrite Hst', MemoryFillTrigger_idle by exact Hz. split; reflexivity.
Qed.

End MemoryFillEngine.

Lemma fill_writes_reversed_value_witness :
  let st := configured 0xAA [(4, 0x3000000); (5, 0x3000002)] in
  let st' := Write W32 (reg_addr 7) 0x11223344 st in
  wf_regs st
  /\ 0 <= 0x11223344 < 2 ^ 32
  /\ u32 (reg_addr 7 - 0x1EF00000) / 4 = fill_value false
  /\ fill_value false < NumIds
  /\ get_field (fill_address_start false)
       (<[Z.to_nat (fill_value false) := 0x11223344]> (g_regs st)) <> 0
  /\ 0 <= 3
  /\ 0x40000000 + 4 * 3 < 0x40000010
  /\ peek32 (memory st') (0x40000000 + 4 * 3) = bswap32 0x11223344.
Proof.
  intros st st'.
  assert (wf_regs st) as Hwf by (vm_compute; reflexivity).
  assert (0 <= 0x11223344 < 2 ^ 32) as HV by lia.
  assert (u32 (reg_addr 7 - 0x1EF00000) / 4 = fill_value false) as Hidx by reflexivity.
  assert (fill_value false < NumIds) as Hlt by reflexivity.
  assert (get_field (fill_address_start false)
            (<[Z.to_nat (fill_value false) := 0x11223344]> (g_regs st)) <> 0) as Hnz
    by (vm_compute; discriminate).
  assert (0x40000000 + 4 * 3 < 0x40000010) as Hbelow by reflexivity.
  repeat (split; [assumption || lia|]).
  pose proof (fill_writes_reversed_value false (reg_addr 7) 0x11223344 st
                Hwf HV Hidx Hlt) as [Hfill _].
  exact (proj1 (Hfill Hnz) 3 ltac:(lia) Hbelow).
Defined.

(** ** The display transfer loops *)

Section TransferLoops.
Context `{RegsLayout} `{MemoryMap}.

(** Running a loop body over a list of indices, split at one of them. *)
Lemma foldl_split {A} (f : State -> A -> State) (l1 l2 : list A) a st :
  foldl f st (l1 ++ a :: l2) = foldl f (f (foldl f st l1) a) l2.
Proof. rewrite foldl_app. reflexivity. Qed.

Lemma seqZ_split n i :
  0 <= i < n -> seqZ 0 n = seqZ 0 i ++ i :: seqZ (i + 1) (n - i - 1).
Proof.
  intros Hi. replace n with (i + (n - i)) at 1 by lia.
  rewrite seqZ_app by lia. f_equal. rewrite seqZ_cons by lia.
  replace (Z.succ (0 + i)) with (i + 1) by lia.
  replace (Z.pred (n - i)) with (n - i - 1) by lia. reflexivity.
Qed.

(** Every step of the transfer only appends to the trace. *)
Lemma transfer_pixel_extends src dst y x st :
  exists evs, trace (transfer_pixel src dst y x st) = trace st ++ evs.
Proof.
  unfold transfer_pixel.
  destruct (_ =? RGBA8); destruct (_ =? RGB8); simpl;
    rewrite <- ?app_assoc; eexists; reflexivity.
Qed.

Lemma foldl_extends {A} (f : State -> A -> State) (l : list A) :
  (forall s a, exists evs, trace (f s a) = trace s ++ evs) ->
  forall st, exists evs, trace (foldl f st l) = trace st ++ evs.
Proof.
  intros Hf. induction l as [|a l IH]; intros st; simpl.
  - exists []. rewrite app_nil_r. reflexivity.
  - destruct (IH (f st a)) as [evs2 Hevs2]. destruct (Hf st a) as [evs1 Hevs1].
    exists (evs1 ++ evs2). rewrite Hevs2, Hevs1, app_assoc. reflexivity.
Qed.

Lemma transfer_row_extends src dst y st :
  exists evs, trace (transfer_row src dst y st) = trace st ++ evs.
Proof. apply foldl_extends. intros. apply transfer_pixel_extends. Qed.

(** The pixel step for RGBA8 input and RGB8 output. *)
Lemma transfer_pixel_rgba8_rgb8 src dst y x st :
  get_field dt_input_format (g_regs st) = RGBA8 ->
  get_field dt_output_format (g_regs st) = RGB8 ->
  let srcptr := src + src_offset (get_field dt_input_width (g_regs st)) y x in
  let dstptr := dst + dst_offset (get_field dt_output_width (g_regs st)) y x in
  let m := memory st in
  trace (transfer_pixel src dst y x st) = trace st ++ pixel_accesses m srcptr dstptr
  /\ memory (transfer_pixel src dst y x st)
     = poke (dstptr + 2) (m (srcptr + 2))
         (poke (dstptr + 1) (m (srcptr + 1)) (poke dstptr (m srcptr) m)).
Proof.
  intros Hin Hout srcptr dstptr m. unfold transfer_pixel.
  rewrite Hin, Hout, !Z.eqb_refl.
  replace (src + u32 (x * 4) + u32 (y * get_field dt_input_width (g_regs st) * 4))
    with srcptr by (unfold srcptr, src_offset; lia).
  replace (dst + u32 (x * 3) + u32 (y * get_field dt_output_width (g_regs st) * 3))
    with dstptr by (unfold dstptr, dst_offset; lia).
  simpl. fold m.
  rewrite !u8_idem. split.
  - rewrite <- !app_assoc. reflexivity.
  - unfold poke. rewrite !u8_idem. reflexivity.
Qed.

(** The pixel step when the output format is not RGB8: no store. *)
Lemma transfer_pixel_no_output src dst y x st :
  get_field dt_output_format (g_regs st) <> RGB8 ->
  memory (transfer_pixel src dst y x st) = memory st
  /\ count is_destination_format_error (trace (transfer_pixel src dst y x st))
     = S (count is_destination_format_error (trace st)).
Proof.
  intros Hout. unfold transfer_pixel.
  destruct (Z.eqb_spec (get_field dt_output_format (g_regs st)) RGB8); [congruence|].
  destruct (_ =? RGBA8); simpl; rewrite !count_snoc; simpl; split; try reflexivity; lia.
Qed.

End TransferLoops.

Section TransferFlat.
Context `{RegsLayout} `{MemoryMap}.

Lemma elem_of_pixels width height y x :
  (y, x) ∈ pixels width height <-> 0 <= y < height /\ 0 <= x < width.
Proof.
  unfold pixels. rewrite list_elem_of_bind. split.
  - intros (y' & Hin & Hy). apply list_elem_of_bind in Hin as (x' & Hin & Hx).
    apply list_elem_of_singleton in Hin. injection Hin as -> ->.
    apply elem_of_seqZ in Hy, Hx. lia.
  - intros [Hy Hx]. exists y. split; [|apply elem_of_seqZ; lia].
    apply list_elem_of_bind. exists x. split; [|apply elem_of_seqZ; lia].
    apply list_elem_of_singleton. reflexivity.
Qed.

Lemma NoDup_pixels width height : NoDup (pixels width height).
Proof.
  unfold pixels. apply NoDup_bind; [| |apply NoDup_seqZ].
  - intros y1 y2 p _ _ H1 H2.
    apply list_elem_of_bind in H1 as (x1 & H1 & _).
    apply list_elem_of_bind in H2 as (x2 & H2 & _).
    apply list_elem_of_singleton in H1, H2. congruence.
  - intros y _. apply NoDup_bind; [| |apply NoDup_seqZ].
    + intros x1 x2 p _ _ H1 H2. apply list_elem_of_singleton in H1, H2. congruence.
    + intros x _. apply NoDup_singleton.
Qed.

Lemma transfer_pixels_core src dst l st : core (transfer_pixels src dst l st) = core st.
Proof. apply foldl_core. intros. apply transfer_pixel_core. Qed.

Lemma transfer_row_flat src dst y st :
  transfer_row src dst y st
  = transfer_pixels src dst
      ((fun x => (y, x)) <$> seqZ 0 (get_field dt_output_width (g_regs st))) st.
Proof.
  unfold transfer_row, transfer_pixels.
  generalize (seqZ 0 (get_field dt_output_width (g_regs st))). intros l.
  revert st. induction l as [|x l IH]; intros st; simpl; [reflexivity|]. apply IH.
Qed.

Lemma transfer_rows_over src dst w ys : forall s,
  get_field dt_output_width (g_regs s) = w ->
  foldl (fun st y => transfer_row src dst y st) s ys
  = transfer_pixels src dst (ys ≫= λ y, seqZ 0 w ≫= λ x, [(y, x)]) s.
Proof.
  induction ys as [|y ys IH]; intros s Hw; [reflexivity|].
  cbn [foldl]. rewrite bind_cons. unfold transfer_pixels at 1. rewrite foldl_app.
  fold (transfer_pixels src dst (seqZ 0 w ≫= λ x, [(y, x)]) s).
  assert (transfer_row src dst y s
          = transfer_pixels src dst (seqZ 0 w ≫= λ x, [(y, x)]) s) as Hrow.
  { rewrite transfer_row_flat, Hw. reflexivity. }
  rewrite <- Hrow. rewrite IH; [reflexivity|].
  rewrite <- Hw. f_equal. apply core_regs. apply transfer_row_core.
Qed.

(** The two nested loops visit [pixels output_width output_height] in order. *)
Lemma transfer_rows_flat src dst st :
  transfer_rows src dst st
  = transfer_pixels src dst
      (pixels (get_field dt_output_width (g_regs st))
              (get_field dt_output_height (g_regs st))) st.
Proof. unfold transfer_rows, pixels. apply transfer_rows_over. reflexivity. Qed.

End TransferFlat.

Section TransferMemory.
Context `{RegsLayout} `{MemoryMap}.

Lemma transfer_pixels_extends src dst l st :
  exists evs, trace (transfer_pixels src dst l st) = trace st ++ evs.
Proof. apply foldl_extends. intros. apply transfer_pixel_extends. Qed.

Lemma transfer_pixels_regs src dst l st :
  g_regs (transfer_pixels src dst l st) = g_regs st.
Proof. apply core_regs. apply transfer_pixels_core. Qed.

(** A pixel step changes no byte outside the three destination bytes of its
    pixel. *)
Lemma transfer_pixel_memory_other src dst y x st q :
  (forall k, 0 <= k < 3 ->
     q <> dst + dst_offset (get_field dt_output_width (g_regs st)) y x + k) ->
  memory (transfer_pixel src dst y x st) q = memory st q.
Proof.
  intros Hq. unfold transfer_pixel, dst_offset in *.
  pose proof (Hq 0) as Hq0. pose proof (Hq 1) as Hq1. pose proof (Hq 2) as Hq2.
  rewrite Z.add_0_r in Hq0.
  destruct (_ =? RGBA8); destruct (_ =? RGB8); simpl; try reflexivity;
    rewrite !poke_other by lia; reflexivity.
Qed.

Lemma transfer_pixels_memory_other src dst w l : forall st q,
  get_field dt_output_width (g_regs st) = w ->
  (forall p k, p ∈ l -> 0 <= k < 3 -> q <> dst + dst_offset w p.1 p.2 + k) ->
  memory (transfer_pixels src dst l st) q = memory st q.
Proof.
  induction l as [|p l IH]; intros st q Hw Hq; [reflexivity|].
  unfold transfer_pixels. cbn [foldl].
  fold (transfer_pixels src dst l (transfer_pixel src dst p.1 p.2 st)).
  rewrite IH.
  - apply transfer_pixel_memory_other. intros k Hk. rewrite Hw.
    apply Hq; [apply list_elem_of_here | exact Hk].
  - rewrite <- Hw. f_equal. apply core_regs. apply transfer_pixel_core.
  - intros p' k Hin Hk. apply Hq; [apply list_elem_of_further; exact Hin | exact Hk].
Qed.

(** When the output format is not RGB8 the loop stores nothing, and logs the
    unknown destination format once per pixel. *)
Lemma transfer_pixels_no_output src dst l : forall st,
  get_field dt_output_format (g_regs st) <> RGB8 ->
  memory (transfer_pixels src dst l st) = memory st
  /\ count is_destination_format_error (trace (transfer_pixels src dst l st))
     = (count is_destination_format_error (trace st) + length l)%nat.
Proof.
  induction l as [|p l IH]; intros st Hout.
  - split; [reflexivity|]. simpl. lia.
  - unfold transfer_pixels. cbn [foldl].
    fold (transfer_pixels src dst l (transfer_pixel src dst p.1 p.2 st)).
    destruct (transfer_pixel_no_output src dst p.1 p.2 st Hout) as [Hm Hc].
    destruct (IH (transfer_pixel src dst p.1 p.2 st)) as [Hm' Hc'].
    { replace (g_regs (transfer_pixel src dst p.1 p.2 st)) with (g_regs st);
        [exact Hout|]. symmetry. apply core_regs. apply transfer_pixel_core. }
    rewrite Hm', Hc', Hm, Hc. split; [reflexivity|]. simpl. lia.
Qed.

Lemma length_pixels width height :
  length (pixels width height) = (Z.to_nat width * Z.to_nat height)%nat.
Proof.
  unfold pixels. rewrite <- (length_seqZ 0 height).
  generalize (seqZ 0 height). intros ys.
  induction ys as [|y ys IH]; [simpl; lia|].
  rewrite bind_cons, length_app, IH. simpl.
  assert (length (seqZ 0 width ≫= λ x, [(y, x)]) = Z.to_nat width) as ->.
  { rewrite <- (length_seqZ 0 width).
    generalize (seqZ 0 width). intros xs.
    induction xs as [|x xs IHx]; [reflexivity|].
    rewrite bind_cons, length_app, IHx. reflexivity. }
  lia.
Qed.

End TransferMemory.

(** ** Display transfer *)

Section DisplayTransferEngine.
Context `{RegsLayout} `{MemoryMap}.

(** A triggered transfer is the pixel loop over [pixels], then one debug line. *)
Lemma DisplayTransferTrigger_runs st :
  Z.land (reg_at (g_regs st) dt_trigger) 1 <> 0 ->
  let regs := g_regs st in
  let src := resolve (DecodeAddressRegister (get_field dt_input_address regs)) in
  let dst := resolve (DecodeAddressRegister (get_field dt_output_address regs)) in
  let looped :=
    transfer_pixels src dst
      (pixels (get_field dt_output_width regs) (get_field dt_output_height regs)) st in
  memory (DisplayTransferTrigger st) = memory looped
  /\ exists line, trace (DisplayTransferTrigger st) = trace looped ++ [DebugLog line].
Proof.
  intros Htrig regs src dst looped. unfold DisplayTransferTrigger.
  destruct (Z.eqb_spec (Z.land (reg_at (g_regs st) dt_trigger) 1) 0); [congruence|].
  fold regs src dst. rewrite transfer_rows_flat. fold regs looped.
  split; [reflexivity|]. eexists. reflexivity.
Qed.

(** C1: in a transfer triggered with input format RGBA8 and output format
    RGB8, for every row [y] below the output height and column [x] below the
    output width the loop loads the four bytes at source offset
    [x*4 + y*input_width*4] and stores the first three, in order, at
    destination offset [x*3 + y*output_width*3]; the fourth byte is not
    stored.  In both offsets each of the two products is a [u32] product, and
    the two are added to the pointer one after the other ([src_offset],
    [dst_offset]).  If moreover no destination byte of the transfer is one of
    these three source bytes and no other pixel's destination bytes are this
    pixel's, the three destination bytes hold the three source bytes when the
    transfer is over.  Where no product overflows 32 bits the two pointers are
    the plain sums. *)
Theorem transfer_copies_rgb addr data st y x :
  u32 (addr - 0x1EF00000) / 4 = dt_trigger ->
  dt_trigger < NumIds ->
  dt_trigger <> fill_value false ->
  dt_trigger <> fill_value true ->
  let regs := <[Z.to_nat dt_trigger := u32 data]> (g_regs st) in
  let ow := get_field dt_output_width regs in
  let oh := get_field dt_output_height regs in
  let iw := get_field dt_input_width regs in
  let src := resolve (DecodeAddressRegister (get_field dt_input_address regs)) in
  let dst := resolve (DecodeAddressRegister (get_field dt_output_address regs)) in
  let srcptr := src + src_offset iw y x in
  let dstptr := dst + dst_offset ow y x in
  let st' := Write W32 addr data st in
  Z.land (reg_at regs dt_trigger) 1 <> 0 ->
  get_field dt_input_format regs = RGBA8 ->
  get_field dt_output_format regs = RGB8 ->
  0 <= y < oh ->
  0 <= x < ow ->
  (exists m before after,
     trace st' = trace st ++ before ++ pixel_accesses m srcptr dstptr ++ after)
  /\ ((forall y' x' k k',
         0 <= y' < oh -> 0 <= x' < ow -> 0 <= k < 3 -> 0 <= k' < 3 ->
         dst + dst_offset ow y' x' + k' <> srcptr + k) ->
      (forall y' x' k k',
         0 <= y' < oh -> 0 <= x' < ow -> (y', x') <> (y, x) ->
         0 <= k < 3 -> 0 <= k' < 3 ->
         dst + dst_offset ow y' x' + k' <> dstptr + k) ->
      forall k, 0 <= k < 3 -> memory st' (dstptr + k) = u8 (memory st (srcptr + k)))
  /\ (x * 4 < 2 ^ 32 -> 0 <= y * iw * 4 < 2 ^ 32 -> y * ow * 3 < 2 ^ 32 ->
      srcptr = src + (x * 4 + y * iw * 4) /\ dstptr = dst + (x * 3 + y * ow * 3)).
Proof.
  intros Hidx Hlt Hf0 Hf1 regs ow oh iw src dst srcptr dstptr st' Htrig Hin Hout Hy Hx.
  set (st1 := set_regs regs st).
  assert (st' = DisplayTransferTrigger st1) as Hst'
    by (apply Write_display_transfer; assumption).
  destruct (DisplayTransferTrigger_runs st1 Htrig) as (Hmem & line & Htrace).
  cbn zeta in Hmem, Htrace. change (g_regs st1) with regs in Hmem, Htrace.
  fold ow oh src dst in Hmem, Htrace.
  assert ((y, x) ∈ pixels ow oh) as Hpix by (apply elem_of_pixels; split; assumption).
  pose proof (NoDup_pixels ow oh) as Hnodup.
  apply list_elem_of_split in Hpix as (l1 & l2 & Hsplit).
  assert (forall p, p ∈ l1 ∨ p ∈ l2 ->
            (0 <= p.1 < oh /\ 0 <= p.2 < ow) /\ p <> (y, x)) as Hothers.
  { intros [y' x'] Hp. split.
    - apply elem_of_pixels. rewrite Hsplit. apply elem_of_app.
      destruct Hp as [Hp|Hp]; [left; exact Hp|right; apply list_elem_of_further; exact Hp].
    - rewrite Hsplit in Hnodup. apply NoDup_app in Hnodup as (_ & Hl1 & Hl2).
      apply NoDup_cons in Hl2 as [Hl2 _]. intros Heq. rewrite Heq in Hp.
      destruct Hp as [Hp|Hp]; [|exact (Hl2 Hp)].
      apply (Hl1 _ Hp). apply list_elem_of_here. }
  rewrite Hsplit in Hmem, Htrace. unfold transfer_pixels in Hmem, Htrace.
  rewrite foldl_split in Hmem, Htrace.
  fold (transfer_pixels src dst l1 st1) in Hmem, Htrace.
  set (s1 := transfer_pixels src dst l1 st1) in *.
  cbn [fst snd] in Hmem, Htrace.
  set (s2 := transfer_pixel src dst y x s1) in *.
  fold (transfer_pixels src dst l2 s2) in Hmem, Htrace.
  assert (g_regs s1 = regs) as Hregs1 by apply transfer_pixels_regs.
  assert (g_regs s2 = regs) as Hregs2.
  { rewrite <- Hregs1. symmetry. apply core_regs. symmetry. apply transfer_pixel_core. }
  destruct (transfer_pixel_rgba8_rgb8 src dst y x s1) as [Htr2 Hm2];
    rewrite ?Hregs1; try assumption.
  rewrite Hregs1 in Htr2, Hm2. fold ow iw in Htr2, Hm2.
  fold srcptr dstptr s2 in Htr2, Hm2.
  split; [|split].
  - destruct (transfer_pixels_extends src dst l1 st1) as [before Hbefore].
    destruct (transfer_pixels_extends src dst l2 s2) as [after Hafter].
    fold s1 in Hbefore.
    exists (memory s1), before, (after ++ [DebugLog line]).
    rewrite Hst', Htrace, Hafter, Htr2, Hbefore. simpl.
    rewrite <- !app_assoc. reflexivity.
  - intros Hsrc Hdst k Hk. rewrite Hst', Hmem.
    rewrite (transfer_pixels_memory_other src dst ow l2 s2);
      [|rewrite Hregs2; reflexivity|].
    2:{ intros p k' Hp Hk'. destruct (Hothers p (or_intror Hp)) as [[Hy' Hx'] Hne].
        intros Heq. apply (Hdst p.1 p.2 k k'); try assumption.
        - destruct p; exact Hne.
        - symmetry. exact Heq. }
    assert (forall j, 0 <= j < 3 -> memory s1 (srcptr + j) = memory st (srcptr + j))
      as Hsame.
    { intros j Hj. unfold s1.
      rewrite (transfer_pixels_memory_other src dst ow l1 st1); [reflexivity|reflexivity|].
      intros p k' Hp Hk'. destruct (Hothers p (or_introl Hp)) as [[Hy' Hx'] _].
      intros Heq. apply (Hsrc p.1 p.2 j k'); try assumption. symmetry. exact Heq. }
    rewrite Hm2.
    assert (k = 0 \/ k = 1 \/ k = 2) as [->|[->| ->]] by lia.
    + rewrite Z.add_0_r, !poke_other, poke_same by lia.
      rewrite <- (Z.add_0_r srcptr) at 1. rewrite Hsame by lia.
      rewrite Z.add_0_r. reflexivity.
    + rewrite poke_other, poke_same by lia. rewrite Hsame by lia. reflexivity.
    + rewrite poke_same. rewrite Hsame by lia. reflexivity.
  - intros Hx4 Hsrc Hdst. unfold srcptr, dstptr, src_offset, dst_offset.
    rewrite !u32_small by nia. split; reflexivity.
Qed.

End DisplayTransferEngine.

(** The products wrap one by one, so an offset can reach [2^32] and beyond. *)
Example offsets_wrap_per_product :
  src_offset 0x8001 0x7FFF 1 = 0x100000000
  /\ dst_offset 0xFFFF 0x5555 0xAAAB = 0x100000002.
Proof. split; reflexivity. Qed.

Lemma transfer_copies_rgb_witness :
  let st := transfer_ready 1 in
  let st' := Write W32 (reg_addr 0x306) 1 st in
  let regs := <[Z.to_nat dt_trigger := u32 1]> (g_regs st) in
  u32 (reg_addr 0x306 - 0x1EF00000) / 4 = dt_trigger
  /\ dt_trigger < NumIds
  /\ dt_trigger <> fill_value false
  /\ dt_trigger <> fill_value true
  /\ Z.land (reg_at regs dt_trigger) 1 <> 0
  /\ get_field dt_input_format regs = RGBA8
  /\ get_field dt_output_format regs = RGB8
  /\ 0 <= 1 < get_field dt_output_height regs
  /\ 0 <= 1 < get_field dt_output_width regs
  /\ (exists m before after,
        trace st' = trace st ++ before
                    ++ pixel_accesses m (0x40000000 + 20) (0x40000800 + 9) ++ after)
  /\ memory st' (0x40000800 + 9 + 2) = u8 (memory st (0x40000000 + 20 + 2)).
Proof.
  intros st st' regs.
  assert (u32 (reg_addr 0x306 - 0x1EF00000) / 4 = dt_trigger) as Hidx by reflexivity.
  assert (dt_trigger < NumIds) as Hlt by reflexivity.
  assert (dt_trigger <> fill_value false) as Hf0 by discriminate.
  assert (dt_trigger <> fill_value true) as Hf1 by discriminate.
  assert (Z.land (reg_at regs dt_trigger) 1 <> 0) as Htrig by (vm_compute; discriminate).
  assert (get_field dt_input_format regs = RGBA8) as Hin by (vm_compute; reflexivity).
  assert (get_field dt_output_format regs = RGB8) as Hout by (vm_compute; reflexivity).
  assert (0 <= 1 < get_field dt_output_height regs) as Hy
    by (vm_compute; split; [discriminate | reflexivity]).
  assert (0 <= 1 < get_field dt_output_width regs) as Hx
    by (vm_compute; split; [discriminate | reflexivity]).
  repeat (split; [assumption|]).
  pose proof (transfer_copies_rgb (reg_addr 0x306) 1 st 1 1
                Hidx Hlt Hf0 Hf1 Htrig Hin Hout Hy Hx) as (Hevents & Hbytes & _).
  split; [exact Hevents|].
  assert (get_field dt_output_width regs = 2) as Hw by (vm_compute; reflexivity).
  assert (get_field dt_output_height regs = 2) as Hh by (vm_compute; reflexivity).
  assert (forall y' x', 0 <= y' < 2 -> 0 <= x' < 2 ->
            dst_offset 2 y' x' = x' * 3 + y' * 2 * 3) as Hoff
    by (intros; unfold dst_offset; rewrite !u32_small by lia; reflexivity).
  apply (Hbytes); [| |lia].
  - intros y' x' k k' Hy' Hx' Hk Hk'. fold regs in Hy', Hx'. rewrite Hh in Hy'.
    rewrite Hw in Hx'. fold regs. rewrite Hw, (Hoff y' x' Hy' Hx').
    change (resolve (DecodeAddressRegister (get_field dt_output_address regs)))
      with 0x40000800.
    change (resolve (DecodeAddressRegister (get_field dt_input_address regs))
            + src_offset (get_field dt_input_width regs) 1 1)
      with 0x40000014.
    lia.
  - intros y' x' k k' Hy' Hx' Hne Hk Hk'. fold regs in Hy', Hx'. rewrite Hh in Hy'.
    rewrite Hw in Hx'. fold regs. rewrite Hw, (Hoff y' x' Hy' Hx').
    change (resolve (DecodeAddressRegister (get_field dt_output_address regs)))
      with 0x40000800.
    change (dst_offset 2 1 1) with 9.
    assert (y' <> 1 \/ x' <> 1) by (destruct (Z.eq_dec y' 1), (Z.eq_dec x' 1); subst; tauto).
    lia.
Defined.

Lemma count_fill_stores P start end_ v b :
  (forall ptr w, P (Store32 ptr w) = b) ->
  count P (fill_stores start end_ v)
  = if b then Z.to_nat (word_count start end_) else 0%nat.
Proof.
  intros HP. unfold fill_stores. rewrite <- (length_seqZ 0 (word_count start end_)).
  generalize (seqZ 0 (word_count start end_)). intros l.
  induction l as [|k l IH].
  - destruct b; reflexivity.
  - rewrite fmap_cons. change (?e :: ?t) with ([e] ++ t). rewrite count_app, IH.
    unfold count at 1. simpl. rewrite HP. destruct b; reflexivity.
Qed.

Section UnsupportedOutput.
Context `{RegsLayout} `{MemoryMap}.

(** C7, as the code has it: a transfer whose output format is not RGB8 leaves
    host memory, hence the destination buffer, unchanged, and logs the unknown
    destination format once for each of the [output_width * output_height]
    pixels. *)
Theorem unsupported_output_format addr data st :
  u32 (addr - 0x1EF00000) / 4 = dt_trigger ->
  dt_trigger < NumIds ->
  dt_trigger <> fill_value false ->
  dt_trigger <> fill_value true ->
  let regs := <[Z.to_nat dt_trigger := u32 data]> (g_regs st) in
  let st' := Write W32 addr data st in
  Z.land (reg_at regs dt_trigger) 1 <> 0 ->
  get_field dt_output_format regs <> RGB8 ->
  memory st' = memory st
  /\ count is_destination_format_error (trace st')
     = (count is_destination_format_error (trace st)
        + Z.to_nat (get_field dt_output_width regs)
          * Z.to_nat (get_field dt_output_height regs))%nat.
Proof.
  intros Hidx Hlt Hf0 Hf1 regs st' Htrig Hout.
  set (st1 := set_regs regs st).
  assert (st' = DisplayTransferTrigger st1) as ->
    by (apply Write_display_transfer; assumption).
  destruct (DisplayTransferTrigger_runs st1 Htrig) as (Hmem & line & Htrace).
  cbn zeta in Hmem, Htrace. change (g_regs st1) with regs in Hmem, Htrace.
  destruct (transfer_pixels_no_output
              (resolve (DecodeAddressRegister (get_field dt_input_address regs)))
              (resolve (DecodeAddressRegister (get_field dt_output_address regs)))
              (pixels (get_field dt_output_width regs) (get_field dt_output_height regs))
              st1 Hout) as [Hm Hc].
  rewrite Hmem, Htrace, count_snoc, Hm, Hc, length_pixels. simpl.
  split; [reflexivity|]. lia.
Qed.

End UnsupportedOutput.

(** A 2x2 transfer to an unsupported output format logs four errors, not one. *)
Lemma unsupported_output_logged_per_pixel :
  let st := transfer_ready 2 in
  let st' := Write W32 (reg_addr 0x306) 1 st in
  get_field dt_output_format (g_regs st') <> RGB8
  /\ count is_destination_format_error (trace st) = 0%nat
  /\ count is_destination_format_error (trace st') = 4%nat.
Proof. vm_compute. split; [discriminate|]. split; reflexivity. Qed.

Lemma unsupported_output_format_witness :
  let st := transfer_ready 2 in
  let st' := Write W32 (reg_addr 0x306) 1 st in
  let regs := <[Z.to_nat dt_trigger := u32 1]> (g_regs st) in
  u32 (reg_addr 0x306 - 0x1EF00000) / 4 = dt_trigger
  /\ dt_trigger < NumIds
  /\ dt_trigger <> fill_value false
  /\ dt_trigger <> fill_value true
  /\ Z.land (reg_at regs dt_trigger) 1 <> 0
  /\ get_field dt_output_format regs <> RGB8
  /\ memory st' = memory st
  /\ count is_destination_format_error (trace st') = (0 + 2 * 2)%nat.
Proof.
  intros st st' regs.
  assert (u32 (reg_addr 0x306 - 0x1EF00000) / 4 = dt_trigger) as Hidx by reflexivity.
  assert (dt_trigger < NumIds) as Hlt by reflexivity.
  assert (dt_trigger <> fill_value false) as Hf0 by discriminate.
  assert (dt_trigger <> fill_value true) as Hf1 by discriminate.
  assert (Z.land (reg_at regs dt_trigger) 1 <> 0) as Htrig by (vm_compute; discriminate).
  assert (get_field dt_output_format regs <> RGB8) as Hout by (vm_compute; discriminate).
  repeat (split; [assumption|]).
  exact (unsupported_output_format (reg_addr 0x306) 1 st Hidx Hlt Hf0 Hf1 Htrig Hout).
Defined.

(** ** Pointers that address translation returns *)

Section UncheckedPointers.
Context `{RegsLayout} `{MemoryMap} `{HostMemory}.

Lemma and_then_finished r k st' :
  and_then r k = Finished st' -> exists s, r = Finished s /\ k s = Finished st'.
Proof.
  destruct r as [s|ptr s]; simpl; intros Hk; [|discriminate].
  exists s. split; [reflexivity | exact Hk].
Qed.


Lemma foldl_finished {A} (fr : A -> State -> Run) (f : State -> A -> State) l :
  (forall a s s', fr a s = Finished s' -> s' = f s a) ->
  forall r st',
    foldl (fun r a => and_then r (fr a)) r l = Finished st' ->
    exists s, r = Finished s /\ st' = foldl f s l.
Proof.
  intros Hstep. induction l as [|a l IH]; intros r st' Hrun.
  - exists st'. split; [exact Hrun | reflexivity].
  - cbn [foldl] in Hrun. apply IH in Hrun as (s1 & Hr & ->).
    apply and_then_finished in Hr as (s & -> & Hs).
    exists s. split; [reflexivity|]. rewrite (Hstep _ _ _ Hs). reflexivity.
Qed.

Lemma foldl_all_finished {A} (fr : A -> State -> Run) (f : State -> A -> State) l :
  (forall a s, fr a s = Finished (f s a)) ->
  forall s, foldl (fun r a => and_then r (fr a)) (Finished s) l = Finished (foldl f s l).
Proof.
  intros Hstep. induction l as [|a l IH]; intros s; [reflexivity|].
  cbn [foldl and_then]. rewrite Hstep. apply IH.
Qed.

(** A run that finishes is the run of the handlers above. *)
Lemma fill_loop_run_finished fuel : forall ptr end_ v st st',
  fill_loop_run fuel ptr end_ v st = Finished st' ->
  st' = fill_loop fuel ptr end_ v st.
Proof.
  induction fuel as [|fuel IH]; intros ptr end_ v st st' Hrun; simpl in *.
  - congruence.
  - destruct (ptr <? end_); [|congruence].
    unfold store32_run in Hrun. destruct (backed32 ptr); [|discriminate].
    apply IH. exact Hrun.
Qed.

Lemma MemoryFillTrigger_run_finished b st st' :
  MemoryFillTrigger_run b st = Finished st' -> st' = MemoryFillTrigger b st.
Proof.
  unfold MemoryFillTrigger_run, MemoryFillTrigger, fill_words.
  destruct (_ =? 0); [congruence|]. intros Hrun.
  apply and_then_finished in Hrun as (s & Hs & Hk).
  apply fill_loop_run_finished in Hs as ->. congruence.
Qed.

Lemma transfer_pixel_run_finished src dst y x st st' :
  transfer_pixel_run src dst y x st = Finished st' -> st' = transfer_pixel src dst y x st.
Proof.
  unfold transfer_pixel_run, transfer_pixel, load8_run, store8_run, and_then, load8.
  cbn [fst snd g_regs emit].
  repeat match goal with
         | |- context [if ?c then _ else _] => destruct c
         end; congruence.
Qed.

Lemma transfer_row_run_finished src dst y st st' :
  transfer_row_run src dst y st = Finished st' -> st' = transfer_row src dst y st.
Proof.
  unfold transfer_row_run, transfer_row. intros Hrun.
  apply (foldl_finished _ (fun st x => transfer_pixel src dst y x st)) in Hrun
      as (s & Hs & ->).
  - congruence.
  - intros a s s'. apply transfer_pixel_run_finished.
Qed.

Lemma transfer_rows_run_finished src dst st st' :
  transfer_rows_run src dst st = Finished st' -> st' = transfer_rows src dst st.
Proof.
  unfold transfer_rows_run, transfer_rows. intros Hrun.
  apply (foldl_finished _ (fun st y => transfer_row src dst y st)) in Hrun
      as (s & Hs & ->).
  - congruence.
  - intros a s s'. apply transfer_row_run_finished.
Qed.

Lemma DisplayTransferTrigger_run_finished st st' :
  DisplayTransferTrigger_run st = Finished st' -> st' = DisplayTransferTrigger st.
Proof.
  unfold DisplayTransferTrigger_run, DisplayTransferTrigger.
  destruct (_ =? 0); [congruence|]. intros Hrun.
  apply and_then_finished in Hrun as (s & Hs & Hk).
  apply transfer_rows_run_finished in Hs as ->. congruence.
Qed.

Lemma Write_run_finished T addr data st st' :
  Write_run T addr data st = Finished st' -> st' = Write T addr data st.
Proof.
  unfold Write_run, Write.
  destruct (_ || _); [congruence|].
  destruct (_ || _); [apply MemoryFillTrigger_run_finished|].
  destruct (_ =? dt_trigger); [apply DisplayTransferTrigger_run_finished|].
  destruct (_ =? cp_trigger); congruence.
Qed.

(** Where every address is backed, every run finishes. *)
Lemma fill_loop_run_backed fuel :
  (forall p, backed p = true) ->
  forall ptr end_ v st,
    fill_loop_run fuel ptr end_ v st = Finished (fill_loop fuel ptr end_ v st).
Proof.
  intros Hall. induction fuel as [|fuel IH]; intros ptr end_ v st; simpl; [reflexivity|].
  destruct (ptr <? end_); [|reflexivity].
  unfold store32_run, backed32. rewrite !Hall. simpl. apply IH.
Qed.

Lemma transfer_pixel_run_backed src dst y x st :
  (forall p, backed p = true) ->
  transfer_pixel_run src dst y x st = Finished (transfer_pixel src dst y x st).
Proof.
  intros Hall.
  unfold transfer_pixel_run, transfer_pixel, load8_run, store8_run, and_then, load8.
  rewrite !Hall. cbn [fst snd g_regs emit].
  repeat match goal with
         | |- context [if ?c then _ else _] => destruct c
         end; rewrite ?Hall; reflexivity.
Qed.

Lemma Write_run_backed T addr data st :
  (forall p, backed p = true) ->
  Write_run T addr data st = Finished (Write T addr data st).
Proof.
  intros Hall. unfold Write_run, Write.
  destruct (_ || _); [reflexivity|].
  destruct (_ || _).
  - unfold MemoryFillTrigger_run, MemoryFillTrigger, fill_words.
    destruct (_ =? 0); [reflexivity|].
    rewrite (fill_loop_run_backed _ Hall). reflexivity.
  - destruct (_ =? dt_trigger); [|destruct (_ =? cp_trigger); reflexivity].
    unfold DisplayTransferTrigger_run, DisplayTransferTrigger.
    destruct (_ =? 0); [reflexivity|].
    unfold transfer_rows_run, transfer_rows.
    erewrite foldl_all_finished; [reflexivity|].
    intros y s. unfold transfer_row_run, transfer_row.
    apply foldl_all_finished. intros x s'. apply transfer_pixel_run_backed. exact Hall.
Qed.





End UncheckedPointers.



(** ** Writes of zero to the trigger registers *)

Section ZeroWrites.
Context `{RegsLayout} `{MemoryMap}.

(** C4, as the code has it: a write of 0 to any register other than the two
    fill value registers, so to the display-transfer trigger and to the
    command-dispatch trigger, only stores the word.  A write of 0 to the value
    register of a fill unit only stores the word if the unit's start address
    register is zero; otherwise the fill runs, with fill value 0. *)
Theorem zero_write_fires_only_fill addr st :
  let index := u32 (addr - 0x1EF00000) / 4 in
  let written := set_regs (<[Z.to_nat index := 0]> (g_regs st)) st in
  let st' := Write W32 addr 0 st in
  index < NumIds ->
  (index <> fill_value false -> index <> fill_value true -> st' = written)
  /\ (forall b,
        index = fill_value b ->
        let address_start := get_field (fill_address_start b) (g_regs written) in
        let address_end := get_field (fill_address_end b) (g_regs written) in
        (address_start = 0 -> st' = written)
        /\ (address_start <> 0 ->
            trace st'
            = trace st
              ++ fill_stores (resolve (DecodeAddressRegister address_start))
                             (resolve (DecodeAddressRegister address_end)) 0
              ++ [DebugLog (MemoryFill (DecodeAddressRegister address_start)
                                       (DecodeAddressRegister address_end))])).
Proof.
  intros index written st' Hlt. split.
  - intros Hf0 Hf1. subst st'. unfold Write. fold index.
    destruct (Z.leb_spec NumIds index); [lia|].
    destruct (Z.eqb_spec index (fill_value false)); [congruence|].
    destruct (Z.eqb_spec index (fill_value true)); [congruence|].
    simpl. change (u32 0) with 0. fold written.
    destruct (Z.eqb_spec index dt_trigger) as [Hdt|_].
    + unfold DisplayTransferTrigger. rewrite <- Hdt.
      change (g_regs written) with (<[Z.to_nat index := 0]> (g_regs st)).
      rewrite reg_at_insert_zero. reflexivity.
    + destruct (Z.eqb_spec index cp_trigger) as [Hcp|_]; [|reflexivity].
      unfold CommandProcessorTrigger. rewrite <- Hcp.
      change (g_regs written) with (<[Z.to_nat index := 0]> (g_regs st)).
      rewrite reg_at_insert_zero. reflexivity.
  - intros b Hidx address_start address_end.
    assert (st' = MemoryFillTrigger b written) as ->.
    { subst st' written. rewrite Hidx. apply Write_fill; [exact Hidx|].
      rewrite <- Hidx. exact Hlt. }
    split.
    + intros Hz. apply MemoryFillTrigger_idle. exact Hz.
    + intros Hnz. destruct (MemoryFillTrigger_runs b written Hnz) as [Htrace _].
      rewrite Htrace. fold address_start address_end.
      change (g_regs written) with (<[Z.to_nat index := 0]> (g_regs st)).
      rewrite <- Hidx, reg_at_insert_zero. reflexivity.
Qed.

End ZeroWrites.

(** Fill unit 0 set up over two words of video memory: a write of 0 to its
    value register runs the fill. *)
Lemma zero_value_write_fills :
  let st := configured 0xAA [(4, 0x3000000); (5, 0x3000001)] in
  let st' := Write W32 (reg_addr 7) 0 st in
  trace st'
  = trace st ++ [Store32 0x40000000 0; Store32 0x40000004 0;
                 DebugLog (MemoryFill 0x18000000 0x18000008)]
  /\ memory st 0x40000000 = 0xAA
  /\ memory st' 0x40000000 = 0.
Proof. vm_compute. repeat split. Qed.

Lemma zero_write_fires_only_fill_witness :
  let st := transfer_ready 1 in
  u32 (reg_addr 0x306 - 0x1EF00000) / 4 < NumIds
  /\ u32 (reg_addr 0x306 - 0x1EF00000) / 4 <> fill_value false
  /\ u32 (reg_addr 0x306 - 0x1EF00000) / 4 <> fill_value true
  /\ Write W32 (reg_addr 0x306) 0 st
     = set_regs (<[Z.to_nat 0x306 := 0]> (g_regs st)) st.
Proof.
  intros st.
  assert (u32 (reg_addr 0x306 - 0x1EF00000) / 4 < NumIds) as Hlt by reflexivity.
  assert (u32 (reg_addr 0x306 - 0x1EF00000) / 4 <> fill_value false) as Hf0
    by discriminate.
  assert (u32 (reg_addr 0x306 - 0x1EF00000) / 4 <> fill_value true) as Hf1
    by discriminate.
  repeat (split; [assumption|]).
  exact (proj1 (zero_write_fires_only_fill (reg_addr 0x306) st Hlt) Hf0 Hf1).
Defined.

(** ** Bit fields of the register file *)

Lemma testbit_above v n i : 0 <= v < 2 ^ n -> 0 <= n <= i -> Z.testbit v i = false.
Proof.
  intros Hv Hi. rewrite <- (Z.mod_small v (2 ^ n)) by exact Hv.
  apply Z.mod_pow2_bits_high. exact Hi.
Qed.

Lemma length_set_field f v regs : length (set_field f v regs) = length regs.
Proof. unfold set_field. apply length_insert. Qed.

Lemma get_field_nonneg f regs : 0 <= f_bits f -> 0 <= get_field f regs.
Proof.
  intros Hb. unfold get_field. apply Z.land_nonneg. right.
  rewrite Z.ones_equiv. pose proof (Z.pow_pos_nonneg 2 (f_bits f)). lia.
Qed.

(** Reading a member back after assigning it. *)
Lemma get_set_field_same f v regs :
  0 <= f_index f -> (Z.to_nat (f_index f) < length regs)%nat ->
  0 <= f_pos f -> 0 <= f_bits f -> 0 <= v < 2 ^ f_bits f ->
  get_field f (set_field f v regs) = v.
Proof.
  intros Hidx Hlen Hpos Hbits Hv. unfold get_field, set_field.
  rewrite reg_at_insert by assumption. unfold field_mask.
  apply Z.bits_inj'. intros n Hn.
  rewrite Z.land_spec, Z.shiftr_spec, Z.lor_spec, Z.ldiff_spec, Z.land_spec by lia.
  rewrite !Z.shiftl_spec by lia. rewrite !Z.testbit_ones by lia.
  replace (n + f_pos f - f_pos f) with n by lia.
  destruct (Z.leb_spec 0 n); [|lia].
  destruct (Z.ltb_spec n (f_bits f)); simpl.
  - rewrite andb_false_r, andb_true_r, andb_true_r. reflexivity.
  - rewrite andb_false_r. symmetry. apply (testbit_above v (f_bits f)); lia.
Qed.

(** Assigning a member leaves the members apart from it as they were. *)
Lemma get_set_field_apart f g v regs :
  apart f g = true -> get_field f (set_field g v regs) = get_field f regs.
Proof.
  intros Hapart. unfold get_field, set_field, reg_at.
  destruct (decide (Z.to_nat (f_index f) = Z.to_nat (f_index g))) as [Heq|Hne].
  2:{ rewrite list_lookup_insert_ne by congruence. reflexivity. }
  unfold apart in Hapart. rewrite Heq, Nat.eqb_refl in Hapart. simpl in Hapart.
  repeat (apply andb_prop in Hapart as [Hapart ?]).
  repeat match goal with Hle : (_ <=? _) = true |- _ => apply Z.leb_le in Hle end.
  rewrite Heq.
  destruct (decide (Z.to_nat (f_index g) < length regs)%nat) as [Hin|Hout].
  2:{ rewrite list_insert_ge by lia. reflexivity. }
  rewrite list_lookup_insert_eq by exact Hin. simpl.
  destruct (regs !! Z.to_nat (f_index g)) as [old|] eqn:Hold; simpl.
  2:{ apply lookup_ge_None in Hold. lia. }
  unfold field_mask. apply Z.bits_inj'. intros n Hn.
  rewrite !Z.land_spec, !Z.shiftr_spec, Z.lor_spec, Z.ldiff_spec, Z.land_spec by lia.
  rewrite !Z.shiftl_spec by lia. rewrite !Z.testbit_ones by lia.
  destruct (Z.leb_spec 0 n); [|lia].
  destruct (Z.ltb_spec n (f_bits f)); simpl; [|rewrite !andb_false_r; reflexivity].
  rewrite !andb_true_r.
  assert ((0 <=? n + f_pos f - f_pos g) && (n + f_pos f - f_pos g <? f_bits g) = false)
    as ->.
  { match goal with
    | Hor : _ || _ = true |- _ => apply orb_prop in Hor as [Hor|Hor]; apply Z.leb_le in Hor
    end;
      destruct (Z.leb_spec 0 (n + f_pos f - f_pos g)),
               (Z.ltb_spec (n + f_pos f - f_pos g) (f_bits g)); try reflexivity; lia. }
  simpl. rewrite andb_true_r, andb_false_r, orb_false_r. reflexivity.
Qed.

(** ** The scanline counter and the height of the primary framebuffer *)

Section ScanlineBound.
Context `{RegsLayout} `{MemoryMap}.

Lemma Write_cur_line T addr data st : g_cur_line (Write T addr data st) = g_cur_line st.
Proof.
  unfold Write. destruct (_ || _); [reflexivity|].
  set (st1 := set_regs _ st). change (g_cur_line st) with (g_cur_line st1).
  symmetry. apply core_cur_line.
  destruct (_ || _); [symmetry; apply MemoryFillTrigger_core|].
  destruct (_ =? dt_trigger); [symmetry; apply DisplayTransferTrigger_core|].
  destruct (_ =? cp_trigger); [symmetry; apply CommandProcessorTrigger_core|].
  reflexivity.
Qed.

Lemma Read_cur_line T addr st : g_cur_line (Read T addr st).2 = g_cur_line st.
Proof. unfold Read. destruct (_ || _); reflexivity. Qed.

(** [Init] leaves the counter at 0 and the primary height at 400. *)
Lemma Init_height rate t st st' :
  wf_regs st -> height_survives_init = true -> Init rate t st = Done st' ->
  g_cur_line st' = 0 /\ get_field (fb_height false) (g_regs st') = 400.
Proof.
  intros Hwf Hlayout Hinit. unfold Init in Hinit.
  destruct (rate =? 0); [discriminate|]. injection Hinit as <-.
  split; [reflexivity|]. cbn [g_regs emit set_regs].
  unfold height_survives_init in Hlayout. cbn [forallb] in Hlayout.
  repeat match goal with
    | Hand : _ && _ = true |- _ => apply andb_prop in Hand as [? ?]
    end.
  repeat match goal with
    | Hle : (_ <=? _) = true |- _ => apply Z.leb_le in Hle
    | Hlt : (_ <? _) = true |- _ => apply Z.ltb_lt in Hlt
    end.
  rewrite !get_set_field_apart by assumption.
  apply get_set_field_same; try assumption; try lia.
  - rewrite !length_set_field. cbn [g_regs set_last_frame_ticks set_last_line_ticks
                                     set_cur_line set_frame_period].
    rewrite Hwf. apply Z2Nat.inj_lt; lia.
  - assert (2 ^ 9 <= 2 ^ f_bits (fb_height false)) by (apply Z.pow_le_mono_r; lia).
    lia.
Qed.

(** C10, as the code has it: [Init] establishes
    [0 <= g_cur_line < framebuffer_top.height] (the counter at 0, the height
    at 400); [Read], [Write] and an [Update] without a reschedule do not
    change the counter; an [Update] on a reschedule that returns leaves the
    counter below the height. *)
Theorem scanline_counter_bound :
  (forall rate t st st',
     wf_regs st -> height_survives_init = true -> Init rate t st = Done st' ->
     line_in_frame st')
  /\ (forall T addr st, g_cur_line (Read T addr st).2 = g_cur_line st)
  /\ (forall T addr data st, g_cur_line (Write T addr data st) = g_cur_line st)
  /\ (forall t st,
        exists st',
          Update t false st = Done st'
          /\ g_cur_line st' = g_cur_line st /\ g_regs st' = g_regs st)
  /\ (forall t st st',
        0 <= f_bits (fb_height false) -> 0 <= g_cur_line st ->
        Update t true st = Done st' ->
        line_in_frame st').
Proof.
  split; [|split; [|split; [|split]]].
  - intros rate t st st' Hwf Hlayout Hinit.
    destruct (Init_height rate t st st' Hwf Hlayout Hinit) as [Hline Hheight].
    unfold line_in_frame. rewrite Hline, Hheight. lia.
  - apply Read_cur_line.
  - apply Write_cur_line.
  - intros t st. unfold Update. destruct (_ <? _); eexists; repeat split.
  - intros t st st' Hbits Hline Hup. unfold line_in_frame.
    pose proof (get_field_nonneg (fb_height false) (g_regs st) Hbits) as Hh.
    unfold Update in Hup.
    set (h := get_field (fb_height false) (g_regs st)) in *.
    destruct (Z.eqb_spec h 0); [destruct (_ <? _); discriminate|].
    set (st1 := if kFrameTicks st <? _ then _ else st) in Hup.
    assert (g_regs st1 = g_regs st /\ g_cur_line st1 = g_cur_line st) as [Hr1 Hc1]
      by (subst st1; destruct (_ <? _); split; reflexivity).
    set (st2 := if kFrameTicks st1 / h <=? _ then _ else st1) in Hup.
    assert (g_regs st2 = g_regs st /\ 0 <= g_cur_line st2) as [Hr2 Hc2].
    { unfold st2.
      destruct (kFrameTicks st1 / h <=? u64 (t - g_last_line_ticks st1)); simpl.
      - split; [exact Hr1 | apply u32_range].
      - split; [exact Hr1 | lia]. }
    destruct (Z.leb_spec h (g_cur_line st2)); injection Hup as <-; simpl;
      rewrite Hr2; fold h; lia.
Qed.

End ScanlineBound.

(** After [Init], a write of 0 to the size register of the primary framebuffer
    sets its height to 0: the counter, 0, is not below the height. *)
Lemma height_write_breaks_bound :
  exists st',
    calls [CallInit 60 0; CallWrite W32 (reg_addr 0x117) 0] (blank 0) = Done st'
    /\ g_cur_line st' = 0
    /\ get_field (fb_height false) (g_regs st') = 0
    /\ ~ line_in_frame st'.
Proof.
  eexists. split; [reflexivity|]. split; [reflexivity|].
  split; [vm_compute; reflexivity|].
  unfold line_in_frame. vm_compute. intros [_ Hlt]. discriminate Hlt.
Qed.

Lemma scanline_counter_bound_witness :
  wf_regs (blank 0)
  /\ height_survives_init = true
  /\ Init 60 0 (blank 0) = Done initialized
  /\ line_in_frame initialized.
Proof.
  assert (wf_regs (blank 0)) as Hwf by reflexivity.
  assert (height_survives_init = true) as Hlayout by reflexivity.
  assert (Init 60 0 (blank 0) = Done initialized) as Hinit by reflexivity.
  repeat (split; [assumption|]).
  exact (proj1 scanline_counter_bound 60 0 (blank 0) initialized Hwf Hlayout Hinit).
Defined.

(** ** The scenario of the specification, at 60 frames per second

    [Init] at refresh rate 60 gives a frame period of 4468724 cycles and
    1489574 ticks and a primary height of 400; 400 calls of [Update] on a
    reschedule, 3723 ticks apart, signal PDC0 400 times and PDC1 once, and
    leave the scanline counter at 0. *)
Example frame_at_60_hertz :
  kFrameCycles initialized = 4468724
  /\ kFrameTicks initialized = 1489574
  /\ get_field (fb_height false) (g_regs initialized) = 400
  /\ kFrameTicks initialized / 400 = 3723
  /\ exists st',
       reschedules ((fun i => 3723 * i) <$> seqZ 1 400) initialized = Done st'
       /\ g_cur_line st' = 0
       /\ count (is_signal PDC0) (trace st') = 400%nat
       /\ count (is_signal PDC1) (trace st') = 1%nat
       /\ last (trace st') = Some (SignalInterrupt PDC1).
Proof.
  repeat (split; [vm_compute; reflexivity|]).
  eexists. split; [vm_compute; reflexivity|].
  repeat split; vm_compute; reflexivity.
Qed.

(** * Further properties of the code *)

(** ** The register window *)

Section RegisterWindow.
Context `{RegsLayout} `{MemoryMap}.

Lemma Write_core_cases T addr data st :
  core (Write T addr data st) = core st
  \/ core (Write T addr data st)
     = core (set_regs (<[Z.to_nat (u32 (addr - 0x1EF00000) / 4) := u32 data]> (g_regs st)) st).
Proof.
  unfold Write. destruct (_ || _); [left; reflexivity|]. right.
  destruct (_ || _); [apply MemoryFillTrigger_core|].
  destruct (_ =? dt_trigger); [apply DisplayTransferTrigger_core|].
  destruct (_ =? cp_trigger); [apply CommandProcessorTrigger_core|].
  reflexivity.
Qed.

Lemma reg_at_insert_other (regs : list Z) i j v :
  Z.to_nat i <> Z.to_nat j -> reg_at (<[Z.to_nat j := v]> regs) i = reg_at regs i.
Proof.
  intros Hne. unfold reg_at. rewrite list_lookup_insert_ne by congruence. reflexivity.
Qed.

(** X1: a [Write], of any access type, address and value and whichever handler it
    runs, leaves the timing counters and constants alone, keeps the length of
    the register file, and changes no register word but the one it
    addresses. *)
Theorem write_changes_one_word T addr data st :
  let st' := Write T addr data st in
  g_cur_line st' = g_cur_line st
  /\ g_last_line_ticks st' = g_last_line_ticks st
  /\ g_last_frame_ticks st' = g_last_frame_ticks st
  /\ kFrameCycles st' = kFrameCycles st
  /\ kFrameTicks st' = kFrameTicks st
  /\ length (g_regs st') = length (g_regs st)
  /\ forall i,
       Z.to_nat i <> Z.to_nat (u32 (addr - 0x1EF00000) / 4) ->
       reg_at (g_regs st') i = reg_at (g_regs st) i.
Proof.
  intros st'. subst st'.
  destruct (Write_core_cases T addr data st) as [Hcore|Hcore];
    unfold core in Hcore; injection Hcore as Hr Hc Hl Hf Hcy Ht;
    rewrite Hr, Hc, Hl, Hf, Hcy, Ht; simpl; repeat split.
  - apply length_insert.
  - intros i Hne. apply reg_at_insert_other. exact Hne.
Qed.

Lemma index_of_reg_addr i k :
  0 <= i < 2 ^ 30 -> 0 <= k < 4 -> u32 (reg_addr i + k - 0x1EF00000) / 4 = i.
Proof.
  intros Hi Hk. unfold reg_addr.
  replace (0x1EF00000 + 4 * i + k - 0x1EF00000) with (k + i * 4) by lia.
  rewrite u32_small by lia. rewrite Z.div_add by lia.
  rewrite Z.div_small by lia. reflexivity.
Qed.

(** X2: the two low bits of the address are ignored: after a 32-bit write to any
    of the four byte addresses of register word [i], a 32-bit read at any of
    them returns the written value. *)
Theorem register_word_aliases i k k' v st :
  wf_regs st ->
  0 <= v < 2 ^ 32 ->
  0 <= i < NumIds ->
  i < 2 ^ 30 ->
  0 <= k < 4 ->
  0 <= k' < 4 ->
  (Read W32 (reg_addr i + k') (Write W32 (reg_addr i + k) v st)).1 = Some v.
Proof.
  intros Hwf Hv Hi Hi30 Hk Hk'.
  pose proof (index_of_reg_addr i k ltac:(lia) Hk) as Hidx.
  pose proof (index_of_reg_addr i k' ltac:(lia) Hk') as Hidx'.
  assert (g_regs (Write W32 (reg_addr i + k) v st) = <[Z.to_nat i := v]> (g_regs st))
    as Hregs.
  { rewrite Write_regs by (rewrite Hidx; lia). rewrite Hidx, u32_small by exact Hv.
    reflexivity. }
  unfold Read. rewrite Hidx'.
  destruct (Z.leb_spec NumIds i); [lia|]. simpl. rewrite Hregs. f_equal.
  apply reg_at_insert; [lia|]. rewrite Hwf. apply Z2Nat.inj_lt; lia.
Qed.

Lemma index_in_window addr :
  0 <= addr < 2 ^ 32 ->
  0 <= NumIds <= 0x38440000 ->
  (u32 (addr - 0x1EF00000) / 4 < NumIds
   <-> 0x1EF00000 <= addr < 0x1EF00000 + 4 * NumIds).
Proof.
  intros Haddr Hn. unfold u32. change (2 ^ 32) with 4294967296 in *.
  Z.to_euclidean_division_equations. lia.
Qed.

(** X3: with at most [0x38440000] registers, the 32-bit addresses that [Read] and
    [Write] serve are exactly those from the base [0x1EF00000] up to
    [0x1EF00000 + 4 * NumIds]: addresses below the base wrap to an index past
    the register file and are refused like the ones above. *)
Theorem register_window addr data st :
  0 <= addr < 2 ^ 32 ->
  0 <= NumIds <= 0x38440000 ->
  ((exists v, (Read W32 addr st).1 = Some v)
   <-> 0x1EF00000 <= addr < 0x1EF00000 + 4 * NumIds)
  /\ (~ 0x1EF00000 <= addr < 0x1EF00000 + 4 * NumIds ->
      Write W32 addr data st
      = emit (ErrorLog (UnknownWrite 32 data (u32 (addr - 0x1EF00000)))) st).
Proof.
  intros Haddr Hn. pose proof (index_in_window addr Haddr Hn) as Hwin.
  unfold Read, Write.
  destruct (Z.leb_spec NumIds (u32 (addr - 0x1EF00000) / 4)) as [Hout|Hin]; simpl.
  - split.
    + split; [intros [v Hv]; discriminate | intros Hrange; apply Hwin in Hrange; lia].
    + reflexivity.
  - split.
    + split; [intros _; apply Hwin; exact Hin | intros _; eexists; reflexivity].
    + intros Hnot. exfalso. apply Hnot. apply Hwin. exact Hin.
Qed.

End RegisterWindow.

Lemma register_word_aliases_witness :
  wf_regs (blank 0) /\ 0 <= 0xBEEF < 2 ^ 32 /\ 0 <= 0x117 < NumIds /\ 0x117 < 2 ^ 30
  /\ 0 <= 3 < 4 /\ 0 <= 1 < 4
  /\ (Read W32 (reg_addr 0x117 + 1) (Write W32 (reg_addr 0x117 + 3) 0xBEEF (blank 0))).1
     = Some 0xBEEF.
Proof.
  assert (wf_regs (blank 0)) as Hwf by reflexivity.
  assert (0 <= 0xBEEF < 2 ^ 32) as Hv by lia.
  assert (0 <= 0x117 < NumIds) as Hi by (split; [discriminate | reflexivity]).
  assert (0x117 < 2 ^ 30) as Hi30 by reflexivity.
  assert (0 <= 3 < 4) as Hk by lia.
  assert (0 <= 1 < 4) as Hk' by lia.
  repeat (split; [assumption|]).
  exact (register_word_aliases 0x117 3 1 0xBEEF (blank 0) Hwf Hv Hi Hi30 Hk Hk').
Defined.

Lemma register_window_witness :
  0 <= 0x1EEFFFFC < 2 ^ 32
  /\ 0 <= NumIds <= 0x38440000
  /\ ~ 0x1EF00000 <= 0x1EEFFFFC < 0x1EF00000 + 4 * NumIds
  /\ Write W32 0x1EEFFFFC 7 (blank 0)
     = emit (ErrorLog (UnknownWrite 32 7 (u32 (0x1EEFFFFC - 0x1EF00000)))) (blank 0).
Proof.
  assert (0 <= 0x1EEFFFFC < 2 ^ 32) as Haddr by lia.
  assert (0 <= NumIds <= 0x38440000) as Hn by (split; discriminate).
  assert (~ 0x1EF00000 <= 0x1EEFFFFC < 0x1EF00000 + 4 * NumIds) as Hnot
    by (intros [Hge _]; exact (Hge eq_refl)).
  repeat (split; [assumption|]).
  exact (proj2 (register_window 0x1EEFFFFC 7 (blank 0) Haddr Hn) Hnot).
Defined.

(** ** Trigger bits *)

Lemma land_1_mod_2 x : Z.land x 1 = x mod 2.
Proof. change 1 with (Z.ones 1) at 1. rewrite Z.land_ones by lia. reflexivity. Qed.

Section TriggerBits.
Context `{RegsLayout} `{MemoryMap}.

(** X4: a write to the command-processor trigger register stores the word and, if
    bit 0 of the written value is set, hands the command list to the command
    processor exactly once, with the resolved buffer pointer and eight times
    the size register (in 32 bits); if the bit is clear nothing else happens.
    Host memory is not touched either way. *)
Theorem command_list_dispatch addr data st :
  wf_regs st ->
  0 <= data < 2 ^ 32 ->
  u32 (addr - 0x1EF00000) / 4 = cp_trigger ->
  cp_trigger < NumIds ->
  cp_trigger <> fill_value false ->
  cp_trigger <> fill_value true ->
  cp_trigger <> dt_trigger ->
  let regs := <[Z.to_nat cp_trigger := data]> (g_regs st) in
  let st' := Write W32 addr data st in
  g_regs st' = regs
  /\ memory st' = memory st
  /\ trace st'
     = trace st
       ++ (if data mod 2 =? 0 then []
           else [ProcessCommandList
                   (resolve (DecodeAddressRegister (get_field cp_address regs)))
                   (u32 (8 * get_field cp_size regs))]).
Proof.
  intros Hwf Hdata Hidx Hlt Hf0 Hf1 Hdt regs st'.
  assert (0 <= cp_trigger) as Hpos by (rewrite <- Hidx; apply index_nonneg).
  assert (st' = CommandProcessorTrigger (set_regs regs st)) as ->.
  { subst st' regs. rewrite Write_command_processor by assumption.
    rewrite (u32_small data Hdata). reflexivity. }
  unfold CommandProcessorTrigger. cbn [g_regs set_regs].
  assert (reg_at regs cp_trigger = data) as ->.
  { subst regs. apply reg_at_insert; [exact Hpos|].
    rewrite Hwf. apply Z2Nat.inj_lt; lia. }
  rewrite land_1_mod_2.
  destruct (data mod 2 =? 0); simpl.
  - rewrite app_nil_r. repeat split.
  - rewrite Z.shiftl_mul_pow2 by lia. change (2 ^ 3) with 8.
    rewrite (Z.mul_comm _ 8). repeat split.
Qed.

(** The events of one iteration of the transfer loop stay inside the source
    and destination rectangles, whatever the formats. *)
Lemma transfer_pixel_events src dst oh y x st :
  0 <= y < oh ->
  0 <= x < get_field dt_output_width (g_regs st) ->
  exists evs,
    trace (transfer_pixel src dst y x st) = trace st ++ evs
    /\ Forall (transfer_event_ok src dst (get_field dt_input_width (g_regs st))
                 (get_field dt_output_width (g_regs st)) oh) evs.
Proof.
  intros Hy Hx. unfold transfer_pixel.
  destruct (_ =? RGBA8); destruct (_ =? RGB8); simpl; rewrite <- ?app_assoc;
    eexists; (split; [reflexivity|]);
    repeat (apply Forall_cons; split; [|]); try apply Forall_nil; simpl; trivial;
    unfold src_offset, dst_offset.
  all: first
    [ exists y, x, 0; repeat split; lia
    | exists y, x, 1; repeat split; lia
    | exists y, x, 2; repeat split; lia
    | exists y, x, 3; repeat split; lia ].
Qed.

Lemma transfer_pixels_events src dst iw ow oh l : forall st,
  get_field dt_input_width (g_regs st) = iw ->
  get_field dt_output_width (g_regs st) = ow ->
  (forall p, p ∈ l -> 0 <= p.1 < oh /\ 0 <= p.2 < ow) ->
  exists evs,
    trace (transfer_pixels src dst l st) = trace st ++ evs
    /\ Forall (transfer_event_ok src dst iw ow oh) evs.
Proof.
  induction l as [|p l IH]; intros st Hiw How Hin.
  - exists []. rewrite app_nil_r. split; [reflexivity | apply Forall_nil; exact I].
  - unfold transfer_pixels. cbn [foldl].
    fold (transfer_pixels src dst l (transfer_pixel src dst p.1 p.2 st)).
    assert (g_regs (transfer_pixel src dst p.1 p.2 st) = g_regs st) as Hregs
      by (apply core_regs; apply transfer_pixel_core).
    destruct (Hin p (list_elem_of_here _ _)) as [Hy Hx].
    destruct (transfer_pixel_events src dst oh p.1 p.2 st Hy) as (evs1 & Ht1 & Hok1);
      [rewrite How; exact Hx|].
    rewrite Hiw, How in Hok1.
    destruct (IH (transfer_pixel src dst p.1 p.2 st)) as (evs2 & Ht2 & Hok2);
      rewrite ?Hregs; try assumption.
    { intros p' Hp'. apply Hin. apply list_elem_of_further. exact Hp'. }
    exists (evs1 ++ evs2). rewrite Ht2, Ht1, app_assoc. split; [reflexivity|].
    apply Forall_app. split; assumption.
Qed.

(** A triggered transfer is the pixel loop, then the debug line that reports
    [output_height * output_width * 4] bytes. *)
Lemma DisplayTransferTrigger_trace st :
  Z.land (reg_at (g_regs st) dt_trigger) 1 <> 0 ->
  let regs := g_regs st in
  let input := DecodeAddressRegister (get_field dt_input_address regs) in
  let output := DecodeAddressRegister (get_field dt_output_address regs) in
  let ow := get_field dt_output_width regs in
  let oh := get_field dt_output_height regs in
  trace (DisplayTransferTrigger st)
  = trace (transfer_pixels (resolve input) (resolve output) (pixels ow oh) st)
    ++ [DebugLog (DisplayTriggerTransfer (u32 (oh * ow * 4)) input
                    (get_field dt_input_width regs) (get_field dt_input_height regs)
                    output ow oh (get_field dt_output_format regs))].
Proof.
  intros Htrig regs input output ow oh. unfold DisplayTransferTrigger.
  destruct (Z.eqb_spec (Z.land (reg_at (g_regs st) dt_trigger) 1) 0); [congruence|].
  rewrite transfer_rows_flat. reflexivity.
Qed.

(** X5: a write to the display-transfer trigger register only stores the word if
    bit 0 of the written value is clear.  If it is set the pixel loops run and
    the debug line follows: every load of the loops reads one of the four
    bytes of a source pixel and every store writes one of the three bytes of a
    destination pixel, for rows below the output height and columns below the
    output width; the debug line reports [output_height * output_width * 4]
    bytes. *)
Theorem display_transfer_trigger_bit addr data st :
  wf_regs st ->
  0 <= data < 2 ^ 32 ->
  u32 (addr - 0x1EF00000) / 4 = dt_trigger ->
  dt_trigger < NumIds ->
  dt_trigger <> fill_value false ->
  dt_trigger <> fill_value true ->
  let regs := <[Z.to_nat dt_trigger := data]> (g_regs st) in
  let input := DecodeAddressRegister (get_field dt_input_address regs) in
  let output := DecodeAddressRegister (get_field dt_output_address regs) in
  let iw := get_field dt_input_width regs in
  let ow := get_field dt_output_width regs in
  let oh := get_field dt_output_height regs in
  let st' := Write W32 addr data st in
  (data mod 2 = 0 -> st' = set_regs regs st)
  /\ (data mod 2 = 1 ->
      exists evs,
        trace st'
        = trace st ++ evs
          ++ [DebugLog (DisplayTriggerTransfer (u32 (oh * ow * 4)) input iw
                          (get_field dt_input_height regs) output ow oh
                          (get_field dt_output_format regs))]
        /\ Forall (transfer_event_ok (resolve input) (resolve output) iw ow oh) evs).
Proof.
  intros Hwf Hdata Hidx Hlt Hf0 Hf1 regs input output iw ow oh st'.
  assert (0 <= dt_trigger) as Hpos by (rewrite <- Hidx; apply index_nonneg).
  set (st1 := set_regs regs st).
  assert (st' = DisplayTransferTrigger st1) as ->.
  { subst st' st1 regs. rewrite Write_display_transfer by assumption.
    rewrite (u32_small data Hdata). reflexivity. }
  assert (reg_at regs dt_trigger = data) as Htrigger.
  { subst regs. apply reg_at_insert; [exact Hpos|].
    rewrite Hwf. apply Z2Nat.inj_lt; lia. }
  split.
  - intros Heven. unfold DisplayTransferTrigger. change (g_regs st1) with regs.
    rewrite Htrigger, land_1_mod_2, Heven. reflexivity.
  - intros Hodd.
    assert (Z.land (reg_at (g_regs st1) dt_trigger) 1 <> 0) as Htrig.
    { change (g_regs st1) with regs. rewrite Htrigger, land_1_mod_2, Hodd. discriminate. }
    rewrite (DisplayTransferTrigger_trace st1 Htrig). change (g_regs st1) with regs.
    fold input output iw ow oh.
    destruct (transfer_pixels_events (resolve input) (resolve output) iw ow oh
                (pixels ow oh) st1) as (evs & Hevs & Hok); try reflexivity.
    { intros [y x] Hp. apply elem_of_pixels in Hp. exact Hp. }
    exists evs. rewrite Hevs, <- app_assoc. split; [reflexivity | exact Hok].
Qed.

End TriggerBits.

(** ** Display transfer: formats, frame and empty rectangles *)

Section TransferEdges.
Context `{RegsLayout} `{MemoryMap}.

(** The pixel step when the input format is not RGBA8 and the output format is
    RGB8: the colour stays at its initial zeros. *)
Lemma transfer_pixel_unknown_input src dst y x st :
  get_field dt_input_format (g_regs st) <> RGBA8 ->
  get_field dt_output_format (g_regs st) = RGB8 ->
  let dstptr := dst + dst_offset (get_field dt_output_width (g_regs st)) y x in
  memory (transfer_pixel src dst y x st)
  = poke (dstptr + 2) 0 (poke (dstptr + 1) 0 (poke dstptr 0 (memory st)))
  /\ count is_load (trace (transfer_pixel src dst y x st)) = count is_load (trace st)
  /\ count is_source_format_error (trace (transfer_pixel src dst y x st))
     = S (count is_source_format_error (trace st)).
Proof.
  intros Hin Hout dstptr. unfold transfer_pixel.
  destruct (Z.eqb_spec (get_field dt_input_format (g_regs st)) RGBA8); [congruence|].
  rewrite Hout, Z.eqb_refl.
  replace (dst + u32 (x * 3) + u32 (y * get_field dt_output_width (g_regs st) * 3))
    with dstptr by (unfold dstptr, dst_offset; lia).
  simpl. rewrite !count_snoc. simpl.
  split; [reflexivity|]. split; lia.
Qed.

Lemma transfer_pixels_unknown_input src dst l : forall st,
  get_field dt_input_format (g_regs st) <> RGBA8 ->
  get_field dt_output_format (g_regs st) = RGB8 ->
  (forall q, memory st q = 0 -> memory (transfer_pixels src dst l st) q = 0)
  /\ count is_load (trace (transfer_pixels src dst l st)) = count is_load (trace st)
  /\ count is_source_format_error (trace (transfer_pixels src dst l st))
     = (count is_source_format_error (trace st) + length l)%nat.
Proof.
  induction l as [|p l IH]; intros st Hin Hout.
  - split; [intros q Hq; exact Hq|]. split; [reflexivity | simpl; lia].
  - unfold transfer_pixels. cbn [foldl].
    fold (transfer_pixels src dst l (transfer_pixel src dst p.1 p.2 st)).
    assert (g_regs (transfer_pixel src dst p.1 p.2 st) = g_regs st) as Hregs
      by (apply core_regs; apply transfer_pixel_core).
    destruct (transfer_pixel_unknown_input src dst p.1 p.2 st Hin Hout) as (Hm & Hl & He).
    destruct (IH (transfer_pixel src dst p.1 p.2 st)) as (Hm' & Hl' & He');
      rewrite ?Hregs; try assumption.
    split; [|split].
    + intros q Hq. apply Hm'. rewrite Hm. unfold poke.
      repeat match goal with |- context [?a =? ?b] => destruct (Z.eqb_spec a b) end;
        try reflexivity. exact Hq.
    + rewrite Hl', Hl. reflexivity.
    + rewrite He', He. simpl. lia.
Qed.

(** X6: in a triggered transfer whose input format is not RGBA8 and whose output
    format is RGB8, no source byte is loaded, the unknown source format is
    logged once per output pixel, and the three destination bytes of every
    pixel are zero when the transfer is over. *)
Theorem unknown_input_format_gives_black addr data st :
  u32 (addr - 0x1EF00000) / 4 = dt_trigger ->
  dt_trigger < NumIds ->
  dt_trigger <> fill_value false ->
  dt_trigger <> fill_value true ->
  let regs := <[Z.to_nat dt_trigger := u32 data]> (g_regs st) in
  let ow := get_field dt_output_width regs in
  let oh := get_field dt_output_height regs in
  let dst := resolve (DecodeAddressRegister (get_field dt_output_address regs)) in
  let st' := Write W32 addr data st in
  Z.land (reg_at regs dt_trigger) 1 <> 0 ->
  get_field dt_input_format regs <> RGBA8 ->
  get_field dt_output_format regs = RGB8 ->
  (forall y x k, 0 <= y < oh -> 0 <= x < ow -> 0 <= k < 3 ->
                 memory st' (dst + dst_offset ow y x + k) = 0)
  /\ count is_load (trace st') = count is_load (trace st)
  /\ count is_source_format_error (trace st')
     = (count is_source_format_error (trace st) + Z.to_nat ow * Z.to_nat oh)%nat.
Proof.
  intros Hidx Hlt Hf0 Hf1 regs ow oh dst st' Htrig Hin Hout.
  set (st1 := set_regs regs st).
  assert (st' = DisplayTransferTrigger st1) as Hst'
    by (apply Write_display_transfer; assumption).
  destruct (DisplayTransferTrigger_runs st1 Htrig) as (Hmem & line & Htrace).
  cbn zeta in Hmem, Htrace. change (g_regs st1) with regs in Hmem, Htrace.
  fold ow oh dst in Hmem, Htrace.
  set (src := resolve (DecodeAddressRegister (get_field dt_input_address regs))) in *.
  split; [|split].
  - intros y x k Hy Hx Hk. rewrite Hst', Hmem.
    assert ((y, x) ∈ pixels ow oh) as Hpix by (apply elem_of_pixels; split; assumption).
    apply list_elem_of_split in Hpix as (l1 & l2 & ->).
    unfold transfer_pixels. rewrite foldl_split.
    fold (transfer_pixels src dst l1 st1). set (s1 := transfer_pixels src dst l1 st1).
    cbn [fst snd].
    fold (transfer_pixels src dst l2 (transfer_pixel src dst y x s1)).
    assert (g_regs s1 = regs) as Hregs1 by apply transfer_pixels_regs.
    assert (g_regs (transfer_pixel src dst y x s1) = regs) as Hregs2.
    { rewrite <- Hregs1. apply core_regs. apply transfer_pixel_core. }
    apply (transfer_pixels_unknown_input src dst l2); rewrite ?Hregs2; try assumption.
    destruct (transfer_pixel_unknown_input src dst y x s1) as (Hm & _);
      rewrite ?Hregs1; try assumption.
    rewrite Hm, Hregs1. fold ow.
    assert (k = 0 \/ k = 1 \/ k = 2) as [->|[->| ->]] by lia.
    + rewrite Z.add_0_r, !poke_other, poke_same by lia. reflexivity.
    + rewrite poke_other, poke_same by lia. reflexivity.
    + rewrite poke_same. reflexivity.
  - destruct (transfer_pixels_unknown_input src dst (pixels ow oh) st1 Hin Hout)
      as (_ & Hl & _).
    rewrite Hst', Htrace, count_snoc, Hl. simpl. lia.
  - destruct (transfer_pixels_unknown_input src dst (pixels ow oh) st1 Hin Hout)
      as (_ & _ & He).
    rewrite Hst', Htrace, count_snoc, He, length_pixels. simpl. lia.
Qed.

(** X7: a triggered transfer, whatever the formats, changes no byte of host memory
    other than the three destination bytes of the pixels in rows below the
    output height and columns below the output width. *)
Theorem transfer_writes_only_destination addr data st q :
  u32 (addr - 0x1EF00000) / 4 = dt_trigger ->
  dt_trigger < NumIds ->
  dt_trigger <> fill_value false ->
  dt_trigger <> fill_value true ->
  let regs := <[Z.to_nat dt_trigger := u32 data]> (g_regs st) in
  let ow := get_field dt_output_width regs in
  let oh := get_field dt_output_height regs in
  let dst := resolve (DecodeAddressRegister (get_field dt_output_address regs)) in
  (forall y x k, 0 <= y < oh -> 0 <= x < ow -> 0 <= k < 3 ->
                 q <> dst + dst_offset ow y x + k) ->
  memory (Write W32 addr data st) q = memory st q.
Proof.
  intros Hidx Hlt Hf0 Hf1 regs ow oh dst Hq.
  set (st1 := set_regs regs st).
  assert (Write W32 addr data st = DisplayTransferTrigger st1) as ->
    by (apply Write_display_transfer; assumption).
  unfold DisplayTransferTrigger.
  destruct (Z.land (reg_at (g_regs st1) dt_trigger) 1 =? 0); [reflexivity|].
  cbn [memory emit]. rewrite transfer_rows_flat. change (g_regs st1) with regs.
  fold ow oh dst.
  rewrite (transfer_pixels_memory_other _ dst ow); [reflexivity | reflexivity |].
  intros [y x] k Hp Hk. apply elem_of_pixels in Hp as [Hy Hx].
  apply Hq; assumption.
Qed.

Lemma pixels_empty width height : width <= 0 \/ height <= 0 -> pixels width height = [].
Proof.
  intros [Hw|Hh]; unfold pixels.
  - rewrite (seqZ_nil 0 width) by exact Hw.
    generalize (seqZ 0 height). intros ys. induction ys as [|y ys IH]; [reflexivity|].
    rewrite bind_cons, IH. reflexivity.
  - rewrite (seqZ_nil 0 height) by exact Hh. reflexivity.
Qed.

(** X8: a triggered transfer whose output width or height is zero accesses no
    memory: it only logs its debug line, which reports 0 bytes. *)
Theorem empty_transfer_only_logs addr data st :
  u32 (addr - 0x1EF00000) / 4 = dt_trigger ->
  dt_trigger < NumIds ->
  dt_trigger <> fill_value false ->
  dt_trigger <> fill_value true ->
  let regs := <[Z.to_nat dt_trigger := u32 data]> (g_regs st) in
  let ow := get_field dt_output_width regs in
  let oh := get_field dt_output_height regs in
  let st' := Write W32 addr data st in
  Z.land (reg_at regs dt_trigger) 1 <> 0 ->
  ow = 0 \/ oh = 0 ->
  memory st' = memory st
  /\ trace st'
     = trace st
       ++ [DebugLog (DisplayTriggerTransfer 0
             (DecodeAddressRegister (get_field dt_input_address regs))
             (get_field dt_input_width regs) (get_field dt_input_height regs)
             (DecodeAddressRegister (get_field dt_output_address regs))
             ow oh (get_field dt_output_format regs))].
Proof.
  intros Hidx Hlt Hf0 Hf1 regs ow oh st' Htrig Hempty.
  set (st1 := set_regs regs st).
  assert (st' = DisplayTransferTrigger st1) as ->
    by (apply Write_display_transfer; assumption).
  destruct (DisplayTransferTrigger_runs st1 Htrig) as (Hmem & _).
  rewrite Hmem, (DisplayTransferTrigger_trace st1 Htrig).
  change (g_regs st1) with regs. fold ow oh.
  rewrite pixels_empty by lia.
  assert (u32 (oh * ow * 4) = 0) as ->
    by (destruct Hempty as [-> | ->]; rewrite ?Z.mul_0_r, ?Z.mul_0_l; reflexivity).
  split; reflexivity.
Qed.

End TransferEdges.

(** ** Memory fill: extent and byte order *)

Lemma word_count_extent start end_ :
  start < end_ ->
  end_ <= start + 4 * word_count start end_ < end_ + 4
  /\ ((end_ - start) mod 4 = 0 -> start + 4 * word_count start end_ = end_).
Proof.
  intros Hlt. unfold word_count. destruct (Z.ltb_spec start end_); [|lia].
  Z.to_euclidean_division_equations. lia.
Qed.

Lemma bswap32_byte V j :
  0 <= j < 4 ->
  u8 (Z.shiftr (bswap32 V) (8 * j)) = u8 (Z.shiftr V (8 * (3 - j))).
Proof.
  intros Hj. unfold u8. rewrite <- !Z.land_ones by lia.
  apply Z.bits_inj'. intros n Hn.
  rewrite !Z.land_spec, !Z.shiftr_spec, !Z.testbit_ones by lia.
  unfold bswap32. change 255 with (Z.ones 8).
  rewrite !Z.lor_spec, !Z.shiftl_spec, !Z.land_spec, !Z.testbit_ones by lia.
  assert (j = 0 \/ j = 1 \/ j = 2 \/ j = 3) as [->|[->|[->| ->]]] by lia;
    split_comparisons; try lia;
    rewrite ?andb_false_r, ?andb_true_r, ?orb_false_r, ?orb_false_l;
    try reflexivity;
    rewrite ?Z.shiftr_spec by lia; f_equal; lia.
Qed.

Section FillExtent.
Context `{RegsLayout} `{MemoryMap}.

(** X9: a fill that runs stores one word for every fourth address from the
    resolved start pointer up to the resolved end pointer and then logs its
    debug line.  It changes no byte outside these words; the last word ends
    less than four bytes past the end pointer, and exactly at it when the
    distance is a multiple of four.  If the end pointer is not above the start
    pointer, memory is untouched and only the debug line is logged. *)
Theorem fill_extent b addr data st :
  u32 (addr - 0x1EF00000) / 4 = fill_value b ->
  fill_value b < NumIds ->
  let regs := <[Z.to_nat (fill_value b) := u32 data]> (g_regs st) in
  let start_address := DecodeAddressRegister (get_field (fill_address_start b) regs) in
  let end_address := DecodeAddressRegister (get_field (fill_address_end b) regs) in
  let start := resolve start_address in
  let end_ := resolve end_address in
  let words := word_count start end_ in
  let st' := Write W32 addr data st in
  get_field (fill_address_start b) regs <> 0 ->
  count is_store (trace st') = (count is_store (trace st) + Z.to_nat words)%nat
  /\ (forall q, q < start \/ start + 4 * words <= q -> memory st' q = memory st q)
  /\ (start < end_ ->
      end_ <= start + 4 * words < end_ + 4
      /\ ((end_ - start) mod 4 = 0 -> start + 4 * words = end_))
  /\ (end_ <= start ->
      memory st' = memory st
      /\ trace st' = trace st ++ [DebugLog (MemoryFill start_address end_address)]).
Proof.
  intros Hidx Hlt regs start_address end_address start end_ words st' Hnz.
  set (st1 := set_regs regs st).
  assert (st' = MemoryFillTrigger b st1) as Hst'
    by (apply Write_fill; assumption).
  destruct (MemoryFillTrigger_runs b st1 Hnz) as [Htrace Hmem].
  change (g_regs st1) with regs in Htrace, Hmem.
  fold start_address end_address start end_ words in Htrace, Hmem.
  change (trace st1) with (trace st) in Htrace.
  change (memory st1) with (memory st) in Hmem.
  split; [|split; [|split]].
  - rewrite Hst', Htrace, app_assoc, count_snoc, count_app.
    rewrite (count_fill_stores is_store _ _ _ true) by reflexivity. simpl. lia.
  - intros q Hq. rewrite Hst', Hmem.
    destruct (Z.leb_spec start q), (Z.ltb_spec q (start + 4 * words)); try reflexivity.
    lia.
  - apply word_count_extent.
  - intros Hle. rewrite Hst'. unfold MemoryFillTrigger.
    change (g_regs st1) with regs.
    destruct (Z.eqb_spec (get_field (fill_address_start b) regs) 0); [congruence|].
    fold start_address end_address start end_. unfold fill_words.
    rewrite Z2Nat.nonpos by lia. split; reflexivity.
Qed.

(** X10: after a fill with value [V], the four bytes of every filled word hold the
    bytes of [V] most significant first: the byte at offset [j] of the word is
    byte [3 - j] of [V]. *)
Theorem fill_bytes_most_significant_first b addr V st k j :
  wf_regs st ->
  0 <= V < 2 ^ 32 ->
  u32 (addr - 0x1EF00000) / 4 = fill_value b ->
  fill_value b < NumIds ->
  let regs := <[Z.to_nat (fill_value b) := V]> (g_regs st) in
  let start := resolve (DecodeAddressRegister (get_field (fill_address_start b) regs)) in
  let end_ := resolve (DecodeAddressRegister (get_field (fill_address_end b) regs)) in
  get_field (fill_address_start b) regs <> 0 ->
  0 <= k ->
  start + 4 * k < end_ ->
  0 <= j < 4 ->
  memory (Write W32 addr V st) (start + 4 * k + j) = (V / 2 ^ (8 * (3 - j))) mod 2 ^ 8.
Proof.
  intros Hwf HV Hidx Hlt regs start end_ Hnz Hk Hbelow Hj.
  set (st1 := set_regs regs st).
  assert (Write W32 addr V st = MemoryFillTrigger b st1) as ->.
  { subst st1 regs. rewrite (Write_fill b) by assumption.
    rewrite (u32_small V HV). reflexivity. }
  assert (reg_at regs (fill_value b) = V) as Hvalue.
  { assert (0 <= fill_value b) by (destruct b; vm_compute; discriminate).
    subst regs. apply reg_at_insert; [assumption|].
    rewrite Hwf. apply Z2Nat.inj_lt; lia. }
  destruct (MemoryFillTrigger_runs b st1 Hnz) as [_ Hmem].
  change (g_regs st1) with regs in Hmem. fold start end_ in Hmem.
  rewrite Hmem, Hvalue.
  apply word_count_spec in Hbelow; [|exact Hk].
  destruct (Z.leb_spec start (start + 4 * k + j)); [|lia].
  destruct (Z.ltb_spec (start + 4 * k + j) (start + 4 * word_count start end_)); [|lia].
  simpl.
  replace ((start + 4 * k + j - start) mod 4) with j.
  2:{ replace (start + 4 * k + j - start) with (j + k * 4) by lia.
      rewrite Z.mod_add by lia. symmetry. apply Z.mod_small. lia. }
  rewrite bswap32_byte by exact Hj. unfold u8.
  rewrite Z.shiftr_div_pow2 by lia. reflexivity.
Qed.

End FillExtent.

(** ** The timing state machine: what a call may do *)

Section UpdateEffects.
Context `{RegsLayout} `{MemoryMap}.

(** X11: [Update] never touches the register file, the frame period constants or
    host memory, and all it appends to the trace is, in this order, at most
    one buffer swap, at most one PDC0 and at most one PDC1. *)
Theorem update_touches_only_timing t r st :
  let st' := state_of (Update t r st) in
  g_regs st' = g_regs st
  /\ kFrameCycles st' = kFrameCycles st
  /\ kFrameTicks st' = kFrameTicks st
  /\ memory st' = memory st
  /\ exists swap line frame : bool,
       trace st'
       = trace st ++ (if swap then [SwapBuffers] else [])
         ++ (if line then [SignalInterrupt PDC0] else [])
         ++ (if frame then [SignalInterrupt PDC1] else []).
Proof.
  unfold Update.
  destruct (kFrameTicks st <? u64 (t - g_last_frame_ticks st)); destruct r;
    cbn [kFrameTicks g_last_line_ticks g_regs g_cur_line set_last_frame_ticks emit];
    repeat match goal with
      | |- context [if ?c then _ else _] => destruct c
      end;
    cbn; repeat (split; [reflexivity|]);
    first
      [ exists false, false, false; cbn; rewrite <- ?app_assoc, ?app_nil_r; reflexivity
      | exists true, false, false; cbn; rewrite <- ?app_assoc, ?app_nil_r; reflexivity
      | exists false, true, false; cbn; rewrite <- ?app_assoc, ?app_nil_r; reflexivity
      | exists false, false, true; cbn; rewrite <- ?app_assoc, ?app_nil_r; reflexivity
      | exists true, true, false; cbn; rewrite <- ?app_assoc, ?app_nil_r; reflexivity
      | exists true, false, true; cbn; rewrite <- ?app_assoc, ?app_nil_r; reflexivity
      | exists false, true, true; cbn; rewrite <- ?app_assoc, ?app_nil_r; reflexivity
      | exists true, true, true; cbn; rewrite <- ?app_assoc, ?app_nil_r; reflexivity ].
Qed.

(** The height of the primary framebuffer after a write to the word that
    holds it. *)
Lemma get_field_written f (regs : list Z) v :
  0 <= f_index f -> (Z.to_nat (f_index f) < length regs)%nat ->
  get_field f (<[Z.to_nat (f_index f) := v]> regs)
  = Z.land (Z.shiftr v (f_pos f)) (Z.ones (f_bits f)).
Proof.
  intros Hpos Hlen. unfold get_field. rewrite reg_at_insert by assumption. reflexivity.
Qed.

(** X12: the division by the height of the primary framebuffer is not guarded: once
    a register write has put zero in the height bits, [Update] on a reschedule
    divides by zero, while [Update] without a reschedule still returns. *)
Theorem zero_height_stops_update addr data t st :
  wf_regs st ->
  u32 (addr - 0x1EF00000) / 4 = f_index (fb_height false) ->
  f_index (fb_height false) < NumIds ->
  Z.land (Z.shiftr (u32 data) (f_pos (fb_height false)))
         (Z.ones (f_bits (fb_height false))) = 0 ->
  (exists s, Update t true (Write W32 addr data st) = DivideError s)
  /\ (exists s, Update t false (Write W32 addr data st) = Done s).
Proof.
  intros Hwf Hidx Hlt Hzero.
  assert (0 <= f_index (fb_height false)) as Hpos
    by (rewrite <- Hidx; apply index_nonneg).
  assert (get_field (fb_height false) (g_regs (Write W32 addr data st)) = 0) as Hh.
  { rewrite Write_regs by (rewrite Hidx; exact Hlt). rewrite Hidx.
    rewrite get_field_written; [exact Hzero | exact Hpos |].
    rewrite Hwf. apply Z2Nat.inj_lt; lia. }
  unfold Update. rewrite Hh. simpl. split; eexists; reflexivity.
Qed.

End UpdateEffects.

(** ** Scanlines over more than a frame, and at one tick count *)

Section ScanlineRuns.
Context `{RegsLayout} `{MemoryMap}.

(** A call on a reschedule with the line period elapsed signals PDC0 once. *)
Lemma Update_line_signal t st :
  let h := get_field (fb_height false) (g_regs st) in
  h <> 0 ->
  kFrameTicks st / h <= u64 (t - g_last_line_ticks st) ->
  count (is_signal PDC0) (trace (state_of (Update t true st)))
  = S (count (is_signal PDC0) (trace st)).
Proof.
  intros h Hh Hline. unfold Update. fold h.
  destruct (Z.eqb_spec h 0); [congruence|].
  set (st1 := if kFrameTicks st <? _ then _ else st).
  assert (kFrameTicks st1 = kFrameTicks st
          /\ g_last_line_ticks st1 = g_last_line_ticks st
          /\ count (is_signal PDC0) (trace st1) = count (is_signal PDC0) (trace st))
    as (Hk1 & Hl1 & Hn1).
  { subst st1. destruct (_ <? _); simpl; rewrite ?count_snoc; simpl;
      repeat split; lia. }
  rewrite Hk1, Hl1.
  destruct (Z.leb_spec (kFrameTicks st / h) (u64 (t - g_last_line_ticks st))); [|lia].
  cbn [g_cur_line set_last_line_ticks set_cur_line emit].
  destruct (h <=? _); simpl; rewrite ?count_snoc, Hn1; simpl; lia.
Qed.

(** X13: from scanline [c], any number [n] of calls on a reschedule, each a line
    period or more after the one before, signal PDC0 [n] times and PDC1
    [(c + n) / h] times, and leave the counter at [(c + n) mod h]: the counter
    wraps at the height [h] of the primary framebuffer. *)
Theorem scanlines_wrap_at_height ts : forall st,
  let h := get_field (fb_height false) (g_regs st) in
  let c := g_cur_line st in
  let n := Z.of_nat (length ts) in
  0 < h < 2 ^ 32 ->
  0 <= kFrameTicks st ->
  0 <= c < h ->
  0 <= g_last_line_ticks st ->
  spaced (kFrameTicks st / h) (g_last_line_ticks st) ts ->
  exists st',
    reschedules ts st = Done st'
    /\ g_cur_line st' = (c + n) mod h
    /\ count (is_signal PDC0) (trace st')
       = (count (is_signal PDC0) (trace st) + length ts)%nat
    /\ Z.of_nat (count (is_signal PDC1) (trace st'))
       = Z.of_nat (count (is_signal PDC1) (trace st)) + (c + n) / h.
Proof.
  induction ts as [|t ts IH]; intros st h c n Hh Hk Hc Hlast Hsp.
  - exists st. subst n. simpl. rewrite Z.add_0_r.
    rewrite Z.mod_small, Z.div_small by lia.
    repeat split; lia.
  - destruct Hsp as [Ht Hsp]. subst n. rewrite length_cons, Nat2Z.inj_succ.
    assert (0 <= kFrameTicks st / h) as Hperiod by (apply Z.div_pos; lia).
    assert (kFrameTicks st / h <= u64 (t - g_last_line_ticks st)) as Hdue
      by (rewrite u64_small by lia; lia).
    destruct (Update_line_step t st c) as (st1 & Hup & Hr1 & Hk1 & Hl1 & Hc1 & Hn1);
      try assumption; try reflexivity.
    fold h in Hc1, Hn1.
    pose proof (Update_line_signal t st ltac:(fold h; lia) Hdue) as Hs1.
    rewrite Hup in Hs1. cbn [state_of] in Hs1.
    cbn [reschedules]. rewrite Hup.
    assert (g_cur_line st1 = (c + 1) mod h
            /\ Z.of_nat (count (is_signal PDC1) (trace st1))
               = Z.of_nat (count (is_signal PDC1) (trace st)) + (c + 1) / h)
      as [Hc1' Hn1'].
    { rewrite Hc1, Hn1. destruct (Z.ltb_spec (c + 1) h).
      - rewrite Z.mod_small, Z.div_small by lia. lia.
      - replace (c + 1) with h by lia.
        rewrite Z_mod_same_full, Z_div_same_full by lia. lia. }
    destruct (IH st1) as (st2 & Hrun & Hc2 & Hs2 & Hn2);
      rewrite ?Hr1, ?Hk1, ?Hl1; fold h; try assumption; try lia.
    { rewrite Hc1'. apply Z.mod_pos_bound. lia. }
    rewrite Hr1 in Hc2, Hn2. fold h in Hc2, Hn2.
    exists st2. split; [exact Hrun|].
    pose proof (Z.div_mod (c + 1) h ltac:(lia)) as Hdm.
    replace (c + Z.succ (Z.of_nat (length ts)))
      with ((c + 1) mod h + Z.of_nat (length ts) + (c + 1) / h * h) by lia.
    rewrite Z.mod_add, Z.div_add by lia.
    split; [rewrite Hc2, Hc1'; reflexivity|].
    split; [rewrite Hs2, Hs1; lia|].
    rewrite Hn2, Hn1', Hc1'. lia.
Qed.

(** A call without a reschedule signals nothing and leaves the scanline side
    of the state alone. *)
Lemma Update_without_reschedule t st :
  exists st',
    Update t false st = Done st'
    /\ g_regs st' = g_regs st /\ kFrameTicks st' = kFrameTicks st
    /\ forall id, count (is_signal id) (trace st') = count (is_signal id) (trace st).
Proof.
  unfold Update. destruct (_ <? _); eexists; (split; [reflexivity|]); simpl;
    repeat split.
  intros id. rewrite count_snoc. destruct id; simpl; lia.
Qed.

(** A state in which a call at tick count [t] signals nothing. *)
Lemma Update_quiet t r st :
  let h := get_field (fb_height false) (g_regs st) in
  0 < h ->
  (kFrameTicks st / h <=? u64 (t - g_last_line_ticks st)) = false ->
  g_cur_line st < h ->
  exists st',
    Update t r st = Done st'
    /\ g_regs st' = g_regs st /\ kFrameTicks st' = kFrameTicks st
    /\ g_last_line_ticks st' = g_last_line_ticks st
    /\ g_cur_line st' = g_cur_line st
    /\ forall id, count (is_signal id) (trace st') = count (is_signal id) (trace st).
Proof.
  intros h Hh Hnot Hc. unfold Update. fold h.
  destruct (Z.eqb_spec h 0); [lia|].
  set (st1 := if kFrameTicks st <? _ then _ else st).
  assert (g_regs st1 = g_regs st /\ kFrameTicks st1 = kFrameTicks st
          /\ g_last_line_ticks st1 = g_last_line_ticks st
          /\ g_cur_line st1 = g_cur_line st
          /\ forall id, count (is_signal id) (trace st1) = count (is_signal id) (trace st))
    as (Hr1 & Hk1 & Hl1 & Hc1 & Hn1).
  { subst st1. destruct (_ <? _); simpl; repeat split.
    intros id. rewrite count_snoc. destruct id; simpl; lia. }
  destruct r.
  - rewrite Hk1, Hl1, Hnot, Hc1.
    destruct (Z.leb_spec h (g_cur_line st)); [lia|].
    exists st1. repeat split; assumption.
  - exists st1. repeat split; assumption.
Qed.

Lemma advances_quiet t flags : forall st,
  let h := get_field (fb_height false) (g_regs st) in
  0 < h ->
  (kFrameTicks st / h <=? u64 (t - g_last_line_ticks st)) = false ->
  g_cur_line st < h ->
  exists st',
    advances t flags st = Done st'
    /\ forall id, count (is_signal id) (trace st') = count (is_signal id) (trace st).
Proof.
  induction flags as [|r flags IH]; intros st h Hh Hnot Hc.
  - exists st. split; reflexivity.
  - destruct (Update_quiet t r st Hh Hnot Hc) as (st1 & Hup & Hr1 & Hk1 & Hl1 & Hc1 & Hn1).
    cbn [advances]. rewrite Hup.
    destruct (IH st1) as (st2 & Hrun & Hn2); rewrite ?Hr1, ?Hk1, ?Hl1, ?Hc1;
      try assumption.
    exists st2. split; [exact Hrun|]. intros id. rewrite Hn2. apply Hn1.
Qed.

(** The first call on a reschedule at tick count [t] signals each interrupt at
    most once and leaves a state that is quiet at [t]. *)
Lemma Update_settles t st :
  let h := get_field (fb_height false) (g_regs st) in
  0 < h <= kFrameTicks st ->
  exists st',
    Update t true st = Done st'
    /\ g_regs st' = g_regs st /\ kFrameTicks st' = kFrameTicks st
    /\ (kFrameTicks st' / h <=? u64 (t - g_last_line_ticks st')) = false
    /\ g_cur_line st' < h
    /\ forall id,
         (count (is_signal id) (trace st') <= count (is_signal id) (trace st) + 1)%nat.
Proof.
  intros h Hh. unfold Update. fold h.
  destruct (Z.eqb_spec h 0); [lia|].
  assert (1 <= kFrameTicks st / h) as Hperiod
    by (apply Z.div_le_lower_bound; lia).
  set (st1 := if kFrameTicks st <? _ then _ else st).
  assert (g_regs st1 = g_regs st /\ kFrameTicks st1 = kFrameTicks st
          /\ g_last_line_ticks st1 = g_last_line_ticks st
          /\ g_cur_line st1 = g_cur_line st
          /\ forall id, count (is_signal id) (trace st1) = count (is_signal id) (trace st))
    as (Hr1 & Hk1 & Hl1 & Hc1 & Hn1).
  { subst st1. destruct (_ <? _); simpl; repeat split.
    intros id. rewrite count_snoc. destruct id; simpl; lia. }
  rewrite Hk1, Hl1.
  destruct (Z.leb_spec (kFrameTicks st / h) (u64 (t - g_last_line_ticks st))) as [Hdue|Hnot];
    cbn [g_cur_line set_last_line_ticks set_cur_line emit].
  - pose proof (u32_range (g_cur_line st1 + 1)) as Hu.
    destruct (Z.leb_spec h (u32 (g_cur_line st1 + 1))); eexists;
      (split; [reflexivity|]); simpl; rewrite ?Hk1, Z.sub_diag;
      (split; [exact Hr1|]); (split; [reflexivity|]);
      (split; [apply Z.leb_gt; change (u64 0) with 0; lia|]);
      (split; [lia|]);
      intros id; rewrite ?count_snoc, Hn1; destruct id; simpl; lia.
  - destruct (Z.leb_spec h (g_cur_line st1)); eexists;
      (split; [reflexivity|]); simpl; rewrite ?Hk1, ?Hl1;
      (split; [exact Hr1|]); (split; [reflexivity|]);
      (split; [apply Z.leb_gt; lia|]);
      (split; [lia|]);
      intros id; rewrite ?count_snoc, Hn1; destruct id; simpl; lia.
Qed.

(** X14: while the tick count stays the same and the line period is at least one
    tick ([kFrameTicks >= height > 0]), calls of [Update], with or without a
    reschedule, all return and together signal PDC0 at most once and PDC1 at
    most once. *)
Theorem one_scanline_per_tick t flags : forall st,
  let h := get_field (fb_height false) (g_regs st) in
  0 < h <= kFrameTicks st ->
  exists st',
    advances t flags st = Done st'
    /\ forall id,
         (count (is_signal id) (trace st') <= count (is_signal id) (trace st) + 1)%nat.
Proof.
  induction flags as [|r flags IH]; intros st h Hh.
  - exists st. split; [reflexivity|]. intros id. lia.
  - destruct r.
    + destruct (Update_settles t st Hh) as (st1 & Hup & Hr1 & Hk1 & Hq & Hc & Hn1).
      fold h in Hq, Hc. cbn [advances]. rewrite Hup.
      destruct (advances_quiet t flags st1) as (st2 & Hrun & Hn2);
        rewrite ?Hr1; fold h; try assumption; try lia.
      exists st2. split; [exact Hrun|]. intros id. rewrite Hn2. apply Hn1.
    + destruct (Update_without_reschedule t st) as (st1 & Hup & Hr1 & Hk1 & Hn1).
      cbn [advances]. rewrite Hup.
      destruct (IH st1) as (st2 & Hrun & Hn2); [rewrite Hr1, Hk1; exact Hh|].
      exists st2. split; [exact Hrun|]. intros id. specialize (Hn2 id).
      rewrite Hn1 in Hn2. exact Hn2.
Qed.

End ScanlineRuns.

(** ** Initialisation *)

Lemma length_assign l : forall regs, length (assign regs l) = length regs.
Proof.
  induction l as [|fv l IH]; intros regs; [reflexivity|].
  unfold assign. cbn [foldl]. fold (assign (set_field fv.1 fv.2 regs) l).
  rewrite IH. apply length_set_field.
Qed.

Lemma assign_get_other f l : forall regs,
  forallb (fun gw => apart f gw.1) l = true ->
  get_field f (assign regs l) = get_field f regs.
Proof.
  induction l as [|gw l IH]; intros regs Hl; [reflexivity|].
  cbn [forallb] in Hl. apply andb_prop in Hl as [Hg Hl].
  unfold assign. cbn [foldl]. fold (assign (set_field gw.1 gw.2 regs) l).
  rewrite IH by exact Hl. apply get_set_field_apart. exact Hg.
Qed.

Lemma reg_at_set_field_other f v regs i :
  Z.to_nat (f_index f) <> Z.to_nat i -> reg_at (set_field f v regs) i = reg_at regs i.
Proof.
  intros Hne. unfold set_field. apply reg_at_insert_other. congruence.
Qed.

Lemma assign_reg_other l i : forall regs,
  Forall (fun fv => Z.to_nat (f_index fv.1) <> Z.to_nat i) l ->
  reg_at (assign regs l) i = reg_at regs i.
Proof.
  induction l as [|fv l IH]; intros regs Hl; [reflexivity|].
  apply Forall_cons in Hl as [Hfv Hl].
  unfold assign. cbn [foldl]. fold (assign (set_field fv.1 fv.2 regs) l).
  rewrite IH by exact Hl. apply reg_at_set_field_other. exact Hfv.
Qed.

Section Initialisation.
Context `{RegsLayout} `{MemoryMap}.

(** Members assigned one after the other all read back their values when each
    fits and none shares a bit with a later one. *)
Lemma assign_reads_back l : forall regs,
  length regs = Z.to_nat NumIds ->
  forallb fits l = true ->
  later_apart l = true ->
  Forall (fun fv => get_field fv.1 (assign regs l) = fv.2) l.
Proof.
  induction l as [|fv l IH]; intros regs Hlen Hfits Hapart; [apply Forall_nil; exact I|].
  cbn [forallb] in Hfits. apply andb_prop in Hfits as [Hfv Hfits].
  cbn [later_apart] in Hapart. apply andb_prop in Hapart as [Hlater Hapart].
  unfold assign. cbn [foldl]. fold (assign (set_field fv.1 fv.2 regs) l).
  apply Forall_cons. split.
  - rewrite assign_get_other by exact Hlater.
    unfold fits in Hfv.
    repeat match goal with
      | Hand : _ && _ = true |- _ => apply andb_prop in Hand as [? ?]
      end.
    repeat match goal with
      | Hle : (_ <=? _) = true |- _ => apply Z.leb_le in Hle
      | Hlt : (_ <? _) = true |- _ => apply Z.ltb_lt in Hlt
      end.
    apply get_set_field_same; try assumption; lia.
  - apply IH; try assumption. rewrite length_set_field. exact Hlen.
Qed.

Lemma Init_regs rate t st st' :
  Init rate t st = Done st' -> g_regs st' = assign (g_regs st) init_assignments.
Proof.
  unfold Init. destruct (rate =? 0); [discriminate|]. intros Hinit.
  injection Hinit as <-. reflexivity.
Qed.

(** X15: after [Init], every member it assigns reads back the assigned value: the
    six framebuffer addresses, and for both screens width 240, height 400 or
    320, stride 720, colour format RGB8 and active buffer 0.  Register words
    that hold none of these members are left as they were.  This needs the
    assigned members to lie inside the register file, apart from each other
    and wide enough for the values. *)
Theorem init_defaults_read_back rate t st st' :
  wf_regs st ->
  init_fields_ok = true ->
  Init rate t st = Done st' ->
  Forall (fun fv => get_field fv.1 (g_regs st') = fv.2) init_assignments
  /\ (forall i,
        Forall (fun fv => Z.to_nat (f_index fv.1) <> Z.to_nat i) init_assignments ->
        reg_at (g_regs st') i = reg_at (g_regs st) i)
  /\ wf_regs st'.
Proof.
  intros Hwf Hok Hinit. rewrite (Init_regs rate t st st' Hinit).
  unfold init_fields_ok in Hok. apply andb_prop in Hok as [Hfits Hapart].
  split; [|split].
  - apply assign_reads_back; assumption.
  - intros i Hi. apply assign_reg_other. exact Hi.
  - unfold wf_regs. rewrite (Init_regs rate t st st' Hinit), length_assign. exact Hwf.
Qed.

(** X16: [Init] at refresh rate 0 divides by zero before it changes anything.  At
    any other rate it returns with the frame period set from the rate, the
    scanline counter at 0 and both timestamps at the current tick count,
    whatever they were before; it touches no host memory and logs one notice.
    A call of [Update] at the tick count of [Init] does not swap buffers. *)
Theorem init_resets_timing rate t r st :
  (rate = 0 -> Init rate t st = DivideError st)
  /\ (rate <> 0 ->
      exists st',
        Init rate t st = Done st'
        /\ kFrameCycles st' = u32 (Z.quot 268123480 rate)
        /\ kFrameTicks st' = kFrameCycles st' / 3
        /\ g_cur_line st' = 0
        /\ g_last_line_ticks st' = t
        /\ g_last_frame_ticks st' = t
        /\ memory st' = memory st
        /\ trace st' = trace st ++ [NoticeLog InitializedOK]
        /\ count is_swap (trace (state_of (Update t r st'))) = count is_swap (trace st'))
  /\ (0 < rate -> kFrameCycles (state_of (Init rate t st)) = 268123480 / rate).
Proof.
  split; [|split].
  - intros ->. reflexivity.
  - intros Hrate. unfold Init. destruct (Z.eqb_spec rate 0); [congruence|].
    eexists. split; [reflexivity|]. cbn -[Z.quot Z.div Update u32].
    repeat (split; [reflexivity|]).
    match goal with |- context [Update t r ?s] => set (s1 := s) end.
    destruct (Update_frame t r s1) as (_ & _ & Hc). rewrite Hc.
    assert ((kFrameTicks s1 <? u64 (t - g_last_frame_ticks s1)) = false) as ->.
    { apply not_due_after_swap; [|reflexivity]. subst s1. cbn -[Z.quot Z.div u32].
      apply Z.div_pos; [apply u32_range | lia]. }
    rewrite Nat.add_0_r. reflexivity.
  - intros Hrate. unfold Init. destruct (Z.eqb_spec rate 0); [lia|].
    cbn -[Z.quot Z.div u32]. rewrite Z.quot_div_nonneg by lia.
    apply u32_small. split; [apply Z.div_pos; lia|].
    assert (268123480 / rate <= 268123480) by (apply Z.div_le_upper_bound; nia).
    lia.
Qed.

End Initialisation.

(** ** The scanline bound as an invariant of calls *)

Section LineInvariant.
Context `{RegsLayout} `{MemoryMap}.





End LineInvariant.

(** ** The further properties at concrete inputs *)

Lemma write_changes_one_word_witness :
  Z.to_nat 0x118 <> Z.to_nat (u32 (reg_addr 0x117 - 0x1EF00000) / 4)
  /\ reg_at (g_regs (Write W32 (reg_addr 0x117) 0 initialized)) 0x118
     = reg_at (g_regs initialized) 0x118.
Proof.
  assert (Z.to_nat 0x118 <> Z.to_nat (u32 (reg_addr 0x117 - 0x1EF00000) / 4)) as Hne
    by (vm_compute; discriminate).
  split; [exact Hne|].
  pose proof (write_changes_one_word W32 (reg_addr 0x117) 0 initialized)
    as (_ & _ & _ & _ & _ & _ & Hother).
  exact (Hother 0x118 Hne).
Defined.

Lemma command_list_dispatch_witness :
  let st := command_list_ready in
  wf_regs st
  /\ 0 <= 1 < 2 ^ 32
  /\ u32 (reg_addr 0x63C - 0x1EF00000) / 4 = cp_trigger
  /\ cp_trigger < NumIds
  /\ cp_trigger <> fill_value false
  /\ cp_trigger <> fill_value true
  /\ cp_trigger <> dt_trigger
  /\ trace (Write W32 (reg_addr 0x63C) 1 st)
     = trace st ++ [ProcessCommandList 0x40000080 40].
Proof.
  intros st.
  assert (wf_regs st) as Hwf by (vm_compute; reflexivity).
  assert (0 <= 1 < 2 ^ 32) as Hdata by lia.
  assert (u32 (reg_addr 0x63C - 0x1EF00000) / 4 = cp_trigger) as Hidx by reflexivity.
  assert (cp_trigger < NumIds) as Hlt by reflexivity.
  assert (cp_trigger <> fill_value false) as Hf0 by discriminate.
  assert (cp_trigger <> fill_value true) as Hf1 by discriminate.
  assert (cp_trigger <> dt_trigger) as Hdt by discriminate.
  repeat (split; [assumption|]).
  exact (proj2 (proj2 (command_list_dispatch (reg_addr 0x63C) 1 st
                         Hwf Hdata Hidx Hlt Hf0 Hf1 Hdt))).
Defined.

Lemma display_transfer_trigger_bit_witness :
  let st := transfer_ready 1 in
  wf_regs st
  /\ 0 <= 2 < 2 ^ 32
  /\ u32 (reg_addr 0x306 - 0x1EF00000) / 4 = dt_trigger
  /\ dt_trigger < NumIds
  /\ dt_trigger <> fill_value false
  /\ dt_trigger <> fill_value true
  /\ 2 mod 2 = 0
  /\ Write W32 (reg_addr 0x306) 2 st
     = set_regs (<[Z.to_nat dt_trigger := 2]> (g_regs st)) st.
Proof.
  intros st.
  assert (wf_regs st) as Hwf by (vm_compute; reflexivity).
  assert (0 <= 2 < 2 ^ 32) as Hdata by lia.
  assert (u32 (reg_addr 0x306 - 0x1EF00000) / 4 = dt_trigger) as Hidx by reflexivity.
  assert (dt_trigger < NumIds) as Hlt by reflexivity.
  assert (dt_trigger <> fill_value false) as Hf0 by discriminate.
  assert (dt_trigger <> fill_value true) as Hf1 by discriminate.
  assert (2 mod 2 = 0) as Heven by reflexivity.
  repeat (split; [assumption|]).
  exact (proj1 (display_transfer_trigger_bit (reg_addr 0x306) 2 st
                  Hwf Hdata Hidx Hlt Hf0 Hf1) Heven).
Defined.

Lemma unknown_input_format_gives_black_witness :
  let st := transfer_setup (2 * 2 ^ 16 + 2) (1 * 2 ^ 12 + 2 * 2 ^ 8) in
  let regs := <[Z.to_nat dt_trigger := u32 1]> (g_regs st) in
  u32 (reg_addr 0x306 - 0x1EF00000) / 4 = dt_trigger
  /\ dt_trigger < NumIds
  /\ dt_trigger <> fill_value false
  /\ dt_trigger <> fill_value true
  /\ Z.land (reg_at regs dt_trigger) 1 <> 0
  /\ get_field dt_input_format regs <> RGBA8
  /\ get_field dt_output_format regs = RGB8
  /\ 0 <= 1 < get_field dt_output_height regs
  /\ 0 <= 1 < get_field dt_output_width regs
  /\ memory st (0x40000800 + 9 + 2) = 19
  /\ memory (Write W32 (reg_addr 0x306) 1 st) (0x40000800 + 9 + 2) = 0.
Proof.
  intros st regs.
  assert (u32 (reg_addr 0x306 - 0x1EF00000) / 4 = dt_trigger) as Hidx by reflexivity.
  assert (dt_trigger < NumIds) as Hlt by reflexivity.
  assert (dt_trigger <> fill_value false) as Hf0 by discriminate.
  assert (dt_trigger <> fill_value true) as Hf1 by discriminate.
  assert (Z.land (reg_at regs dt_trigger) 1 <> 0) as Htrig by (vm_compute; discriminate).
  assert (get_field dt_input_format regs <> RGBA8) as Hin by (vm_compute; discriminate).
  assert (get_field dt_output_format regs = RGB8) as Hout by (vm_compute; reflexivity).
  assert (0 <= 1 < get_field dt_output_height regs) as Hy
    by (vm_compute; split; [discriminate | reflexivity]).
  assert (0 <= 1 < get_field dt_output_width regs) as Hx
    by (vm_compute; split; [discriminate | reflexivity]).
  repeat (split; [assumption|]).
  split; [vm_compute; reflexivity|].
  exact (proj1 (unknown_input_format_gives_black (reg_addr 0x306) 1 st
                  Hidx Hlt Hf0 Hf1 Htrig Hin Hout) 1 1 2 Hy Hx ltac:(lia)).
Defined.

Lemma transfer_writes_only_destination_witness :
  let st := transfer_ready 1 in
  let regs := <[Z.to_nat dt_trigger := u32 1]> (g_regs st) in
  u32 (reg_addr 0x306 - 0x1EF00000) / 4 = dt_trigger
  /\ dt_trigger < NumIds
  /\ dt_trigger <> fill_value false
  /\ dt_trigger <> fill_value true
  /\ (forall y x k,
        0 <= y < get_field dt_output_height regs ->
        0 <= x < get_field dt_output_width regs -> 0 <= k < 3 ->
        0x40000000
        <> resolve (DecodeAddressRegister (get_field dt_output_address regs))
           + dst_offset (get_field dt_output_width regs) y x + k)
  /\ memory (Write W32 (reg_addr 0x306) 1 st) 0x40000000 = memory st 0x40000000.
Proof.
  intros st regs.
  assert (u32 (reg_addr 0x306 - 0x1EF00000) / 4 = dt_trigger) as Hidx by reflexivity.
  assert (dt_trigger < NumIds) as Hlt by reflexivity.
  assert (dt_trigger <> fill_value false) as Hf0 by discriminate.
  assert (dt_trigger <> fill_value true) as Hf1 by discriminate.
  assert (forall y x k,
            0 <= y < get_field dt_output_height regs ->
            0 <= x < get_field dt_output_width regs -> 0 <= k < 3 ->
            0x40000000
            <> resolve (DecodeAddressRegister (get_field dt_output_address regs))
               + dst_offset (get_field dt_output_width regs) y x + k) as Hq.
  { intros y x k _ _ Hk.
    change (resolve (DecodeAddressRegister (get_field dt_output_address regs)))
      with 0x40000800.
    pose proof (u32_range (x * 3)) as Hcol.
    pose proof (u32_range (y * get_field dt_output_width regs * 3)) as Hrow.
    unfold dst_offset. lia. }
  repeat (split; [assumption|]).
  exact (transfer_writes_only_destination (reg_addr 0x306) 1 st 0x40000000
           Hidx Hlt Hf0 Hf1 Hq).
Defined.

Lemma empty_transfer_only_logs_witness :
  let st := transfer_setup 0 (1 * 2 ^ 12) in
  let regs := <[Z.to_nat dt_trigger := u32 1]> (g_regs st) in
  u32 (reg_addr 0x306 - 0x1EF00000) / 4 = dt_trigger
  /\ dt_trigger < NumIds
  /\ dt_trigger <> fill_value false
  /\ dt_trigger <> fill_value true
  /\ Z.land (reg_at regs dt_trigger) 1 <> 0
  /\ (get_field dt_output_width regs = 0 \/ get_field dt_output_height regs = 0)
  /\ memory (Write W32 (reg_addr 0x306) 1 st) = memory st
  /\ trace (Write W32 (reg_addr 0x306) 1 st)
     = trace st ++ [DebugLog (DisplayTriggerTransfer 0 0x18000000 4 2 0x18000800 0 0 1)].
Proof.
  intros st regs.
  assert (u32 (reg_addr 0x306 - 0x1EF00000) / 4 = dt_trigger) as Hidx by reflexivity.
  assert (dt_trigger < NumIds) as Hlt by reflexivity.
  assert (dt_trigger <> fill_value false) as Hf0 by discriminate.
  assert (dt_trigger <> fill_value true) as Hf1 by discriminate.
  assert (Z.land (reg_at regs dt_trigger) 1 <> 0) as Htrig by (vm_compute; discriminate).
  assert (get_field dt_output_width regs = 0 \/ get_field dt_output_height regs = 0)
    as Hempty by (left; vm_compute; reflexivity).
  repeat (split; [assumption|]).
  exact (empty_transfer_only_logs (reg_addr 0x306) 1 st Hidx Hlt Hf0 Hf1 Htrig Hempty).
Defined.

Lemma fill_extent_witness :
  let st := fill_ready 0x3000002 in
  let regs := <[Z.to_nat (fill_value false) := u32 0x11223344]> (g_regs st) in
  u32 (reg_addr 7 - 0x1EF00000) / 4 = fill_value false
  /\ fill_value false < NumIds
  /\ get_field (fill_address_start false) regs <> 0
  /\ count is_store (trace (Write W32 (reg_addr 7) 0x11223344 st))
     = (count is_store (trace st) + 4)%nat
  /\ memory (Write W32 (reg_addr 7) 0x11223344 st) 0x40000010 = memory st 0x40000010.
Proof.
  intros st regs.
  assert (u32 (reg_addr 7 - 0x1EF00000) / 4 = fill_value false) as Hidx by reflexivity.
  assert (fill_value false < NumIds) as Hlt by reflexivity.
  assert (get_field (fill_address_start false) regs <> 0) as Hnz
    by (vm_compute; discriminate).
  repeat (split; [assumption|]).
  pose proof (fill_extent false (reg_addr 7) 0x11223344 st Hidx Hlt Hnz)
    as (Hcount & Hframe & _).
  split; [exact Hcount|].
  apply Hframe. right. vm_compute. discriminate.
Defined.

Lemma fill_bytes_most_significant_first_witness :
  let st := fill_ready 0x3000002 in
  let regs := <[Z.to_nat (fill_value false) := 0x11223344]> (g_regs st) in
  wf_regs st
  /\ 0 <= 0x11223344 < 2 ^ 32
  /\ u32 (reg_addr 7 - 0x1EF00000) / 4 = fill_value false
  /\ fill_value false < NumIds
  /\ get_field (fill_address_start false) regs <> 0
  /\ 0 <= 1
  /\ 0x40000000 + 4 * 1 < 0x40000010
  /\ 0 <= 0 < 4
  /\ memory (Write W32 (reg_addr 7) 0x11223344 st) (0x40000000 + 4 * 1 + 0) = 0x11.
Proof.
  intros st regs.
  assert (wf_regs st) as Hwf by (vm_compute; reflexivity).
  assert (0 <= 0x11223344 < 2 ^ 32) as HV by lia.
  assert (u32 (reg_addr 7 - 0x1EF00000) / 4 = fill_value false) as Hidx by reflexivity.
  assert (fill_value false < NumIds) as Hlt by reflexivity.
  assert (get_field (fill_address_start false) regs <> 0) as Hnz
    by (vm_compute; discriminate).
  assert (0 <= 1) as Hk by lia.
  assert (0x40000000 + 4 * 1 < 0x40000010) as Hbelow by reflexivity.
  assert (0 <= 0 < 4) as Hj by lia.
  repeat (split; [assumption|]).
  exact (fill_bytes_most_significant_first false (reg_addr 7) 0x11223344 st 1 0
           Hwf HV Hidx Hlt Hnz Hk Hbelow Hj).
Defined.

Lemma zero_height_stops_update_witness :
  wf_regs initialized
  /\ u32 (reg_addr 0x117 - 0x1EF00000) / 4 = f_index (fb_height false)
  /\ f_index (fb_height false) < NumIds
  /\ Z.land (Z.shiftr (u32 240) (f_pos (fb_height false)))
            (Z.ones (f_bits (fb_height false))) = 0
  /\ exists s, Update 5000 true (Write W32 (reg_addr 0x117) 240 initialized)
               = DivideError s.
Proof.
  assert (wf_regs initialized) as Hwf by (vm_compute; reflexivity).
  assert (u32 (reg_addr 0x117 - 0x1EF00000) / 4 = f_index (fb_height false)) as Hidx
    by reflexivity.
  assert (f_index (fb_height false) < NumIds) as Hlt by reflexivity.
  assert (Z.land (Z.shiftr (u32 240) (f_pos (fb_height false)))
                 (Z.ones (f_bits (fb_height false))) = 0) as Hzero by reflexivity.
  repeat (split; [assumption|]).
  exact (proj1 (zero_height_stops_update (reg_addr 0x117) 240 5000 initialized
                  Hwf Hidx Hlt Hzero)).
Defined.

Lemma scanlines_wrap_at_height_witness :
  let ts := [496524; 993048; 1489572; 1986096] in
  0 < get_field (fb_height false) (g_regs three_lines) < 2 ^ 32
  /\ 0 <= kFrameTicks three_lines
  /\ 0 <= g_cur_line three_lines < get_field (fb_height false) (g_regs three_lines)
  /\ 0 <= g_last_line_ticks three_lines
  /\ spaced (kFrameTicks three_lines / get_field (fb_height false) (g_regs three_lines))
            (g_last_line_ticks three_lines) ts
  /\ exists st',
       reschedules ts three_lines = Done st'
       /\ g_cur_line st' = (0 + 4) mod 3
       /\ count (is_signal PDC0) (trace st')
          = (count (is_signal PDC0) (trace three_lines) + 4)%nat
       /\ Z.of_nat (count (is_signal PDC1) (trace st'))
          = Z.of_nat (count (is_signal PDC1) (trace three_lines)) + (0 + 4) / 3.
Proof.
  intros ts.
  assert (0 < get_field (fb_height false) (g_regs three_lines) < 2 ^ 32) as Hh
    by (vm_compute; split; reflexivity).
  assert (0 <= kFrameTicks three_lines) as Hk by (vm_compute; discriminate).
  assert (0 <= g_cur_line three_lines < get_field (fb_height false) (g_regs three_lines))
    as Hc by (vm_compute; split; [discriminate | reflexivity]).
  assert (0 <= g_last_line_ticks three_lines) as Hl by (vm_compute; discriminate).
  assert (spaced (kFrameTicks three_lines / get_field (fb_height false) (g_regs three_lines))
            (g_last_line_ticks three_lines) ts) as Hsp
    by (vm_compute; repeat split; discriminate).
  repeat (split; [assumption|]).
  exact (scanlines_wrap_at_height ts three_lines Hh Hk Hc Hl Hsp).
Defined.

Lemma one_scanline_per_tick_witness :
  0 < get_field (fb_height false) (g_regs three_lines) <= kFrameTicks three_lines
  /\ exists st',
       advances 496524 [true; true; false; true] three_lines = Done st'
       /\ forall id,
            (count (is_signal id) (trace st')
             <= count (is_signal id) (trace three_lines) + 1)%nat.
Proof.
  assert (0 < get_field (fb_height false) (g_regs three_lines) <= kFrameTicks three_lines)
    as Hh by (vm_compute; split; [reflexivity | discriminate]).
  split; [exact Hh|].
  exact (one_scanline_per_tick 496524 [true; true; false; true] three_lines Hh).
Defined.

Lemma init_defaults_read_back_witness :
  wf_regs (blank 0)
  /\ init_fields_ok = true
  /\ Init 60 0 (blank 0) = Done initialized
  /\ Forall (fun fv => get_field fv.1 (g_regs initialized) = fv.2) init_assignments.
Proof.
  assert (wf_regs (blank 0)) as Hwf by reflexivity.
  assert (init_fields_ok = true) as Hok by (vm_compute; reflexivity).
  assert (Init 60 0 (blank 0) = Done initialized) as Hinit by reflexivity.
  repeat (split; [assumption|]).
  exact (proj1 (init_defaults_read_back 60 0 (blank 0) initialized Hwf Hok Hinit)).
Defined.

Lemma init_resets_timing_witness :
  60 <> 0
  /\ exists st',
       Init 60 7 (blank 0) = Done st'
       /\ kFrameCycles st' = u32 (Z.quot 268123480 60)
       /\ kFrameTicks st' = kFrameCycles st' / 3
       /\ g_cur_line st' = 0
       /\ g_last_line_ticks st' = 7
       /\ g_last_frame_ticks st' = 7
       /\ memory st' = memory (blank 0)
       /\ trace st' = trace (blank 0) ++ [NoticeLog InitializedOK]
       /\ count is_swap (trace (state_of (Update 7 true st'))) = count is_swap (trace st').
Proof.
  assert (60 <> 0) as Hrate by discriminate.
  split; [exact Hrate|].
  exact (proj1 (proj2 (init_resets_timing 60 7 true (blank 0))) Hrate).
Defined.

